(** * RadGraphAnalyzer: a shallow embedding and its properties

    This development models the [RadGraphAnalyzer] class of
    [Prediction Model/intensity_prediction/XGBoost_Y.ipynb]: the parser of
    RadGraph extracts ([parse_radgraph_format]), the certainty histogram
    ([analyze_certainty]), the relation dispatch ([find_pneumonia_patterns])
    and the feature record ([extract_features]).

    Conventions.
    - A Python [str] is a [string]; a character stands for the code point
      of the same number, so the model covers the strings whose code points
      are below 256.
    - A Python [dict] that is only looked up and compared is a [gmap]; the
      input mapping of an extract, whose iteration order decides the order
      of the produced lists, is an association list in document order.
    - A Python [set] that is iterated is a list in the iteration order of
      the run.
    - Exceptions are values of [exn]; a function that may raise returns a
      [result]. *)

From Stdlib Require Import ZArith Ascii String List Permutation Lia.
From stdpp Require Import base option list strings gmap fin_maps.
Import ListNotations.

Local Open Scope string_scope.
Local Open Scope Z_scope.
Local Open Scope list_scope.

(** ** Python string primitives *)

Module PyStr.

(** [str.isspace] on one character, for code points below 256: the ASCII
    white space 0x09-0x0D, 0x1C-0x1F, 0x20 and the Latin-1 characters 0x85
    and 0xA0. *)
Definition isspace (c : ascii) : bool :=
  let n := N_of_ascii c in
  ((9 <=? n) && (n <=? 13) || (28 <=? n) && (n <=? 32)
   || (n =? 133) || (n =? 160))%N.

(** [str.lower] on one character, for code points below 256: A-Z and the
    Latin-1 capitals 0xC0-0xDE other than the multiplication sign 0xD7 move
    up by 32. *)
Definition lower_char (c : ascii) : ascii :=
  let n := N_of_ascii c in
  if ((65 <=? n) && (n <=? 90)
      || (192 <=? n) && (n <=? 222) && negb (n =? 215))%N
  then ascii_of_N (n + 32) else c.

Fixpoint lower (s : string) : string :=
  match s with
  | EmptyString => EmptyString
  | String c s' => String (lower_char c) (lower s')
  end.

(** [s.startswith(p)] *)
Fixpoint startswith (p s : string) : bool :=
  match p, s with
  | EmptyString, _ => true
  | String _ _, EmptyString => false
  | String a p', String b s' => Ascii.eqb a b && startswith p' s'
  end.

(** [sub in s]: [sub] occurs in [s] at some position. *)
Fixpoint contains (sub s : string) : bool :=
  startswith sub s ||
  match s with
  | EmptyString => false
  | String _ s' => contains sub s'
  end.

(** Appending one character to the word being read. *)
Definition snoc (w : string) (c : ascii) : string :=
  String.append w (String c EmptyString).

(** The scan of [str.split()] without a separator: [cur] is the word being
    read; white space ends a word, and runs of white space produce no empty
    word. *)
Fixpoint split_ws (cur : string) (s : string) : list string :=
  match s with
  | EmptyString =>
      match cur with EmptyString => [] | _ => [cur] end
  | String c s' =>
      if isspace c then
        match cur with
        | EmptyString => split_ws EmptyString s'
        | _ => cur :: split_ws EmptyString s'
        end
      else split_ws (snoc cur c) s'
  end.

(** [s.split()] *)
Definition split (s : string) : list string := split_ws EmptyString s.

(** The scan of [s.split(sep)] for a non-empty [sep]: at an occurrence of
    [sep] the piece read so far is closed and the rest of the occurrence
    ([skip] characters) is passed over. *)
Fixpoint split_at (sep : string) (skip : nat) (cur : string) (s : string)
  : list string :=
  match s with
  | EmptyString => [cur]
  | String c s' =>
      match skip with
      | S k => split_at sep k cur s'
      | O =>
          if startswith sep s
          then cur :: split_at sep (Nat.pred (String.length sep)) EmptyString s'
          else split_at sep O (snoc cur c) s'
      end
  end.

(** [s.split(sep)] *)
Definition split_sep (sep s : string) : list string :=
  split_at sep O EmptyString s.

(** [sep.join(l)] *)
Fixpoint join (sep : string) (l : list string) : string :=
  match l with
  | [] => EmptyString
  | [w] => w
  | w :: l' => String.append w (String.append sep (join sep l'))
  end.

End PyStr.

(** ** Python slices *)

(** The adjustment of a slice bound to a sequence of length [len]: a
    negative bound counts from the end, and every bound is clamped to
    [0..len]. *)
Definition adjust_index (len i : Z) : Z :=
  if i <? 0 then Z.max 0 (i + len) else Z.min i len.

(** [l[lo:hi]] *)
Definition py_slice {A} (l : list A) (lo hi : Z) : list A :=
  let len := Z.of_nat (length l) in
  let a := adjust_index len lo in
  let b := adjust_index len hi in
  take (Z.to_nat (b - a)) (drop (Z.to_nat a) l).

(** ** Exceptions *)

Inductive exn : Type :=
  | KeyError (key : string)
  | IndexError.

Inductive result (A : Type) : Type :=
  | Ok (a : A)
  | Raise (e : exn).

Arguments Ok {A} a.
Arguments Raise {A} e.

Definition bind {A B} (r : result A) (k : A -> result B) : result B :=
  match r with
  | Ok a => k a
  | Raise e => Raise e
  end.

Notation "'let*' x ':=' r 'in' k" := (bind r (fun x => k))
  (at level 10, x name, r at level 100, k at level 200).

(** [d[key]] on a dict whose entry may be missing. *)
Definition getitem {A} (key : string) (field : option A) : result A :=
  match field with
  | Some a => Ok a
  | None => Raise (KeyError key)
  end.

(** ** Data model *)

(** One value of the input mapping: every key may be absent. *)
Record entity_info : Type := {
  i_tokens : option string;
  i_label : option string;
  i_start_ix : option Z;
  i_end_ix : option Z;
  i_relations : option (list (string * string))
}.

(** The input extract: the keys ['text'] and ['entities']; the mapping is
    kept in its iteration order. *)
Record extract : Type := {
  x_text : option string;
  x_entities : option (list (string * entity_info))
}.

(** The dict built for each entity by the parser. *)
Record entity : Type := {
  e_id : string;
  e_text : string;
  e_type : string;
  e_start_ix : Z;
  e_end_ix : Z
}.

(** The dict built for each relation by the parser. *)
Record relation : Type := {
  r_source : string;
  r_target : string;
  r_type : string
}.

(** What the pattern lists hold: a text, or a (source, target) pair. *)
Inductive item : Type :=
  | Str (s : string)
  | Tup (s t : string).

(** The three [defaultdict(list)] of [find_pneumonia_patterns]. *)
Record patterns : Type := {
  findings : gmap string (list item);
  locations : gmap string (list item);
  modifiers : gmap string (list item)
}.

(** The default record of [observations] in [extract_features]. *)
Record observation : Type := {
  o_text : string;
  o_certainty : string;
  o_locations : list string;
  o_modifiers : list string;
  o_suggestions : list string
}.

Record graph_metrics : Type := {
  num_entities : nat;
  num_relations : nat;
  num_anatomical_sites : nat;
  num_observations : nat
}.

Record features : Type := {
  f_observations : gmap string observation;
  f_patterns : patterns;
  f_certainty_analysis : gmap string nat;
  f_graph_metrics : graph_metrics
}.

(** The analyzer object: [pneumonia_terms] is a set, given here in the order
    in which the run iterates it. *)
Record RadGraphAnalyzer : Type := {
  pneumonia_terms : list string
}.

Definition ENTITY_TYPES : list string :=
  [ "Anatomy::definitely present";
    "Observation::definitely present";
    "Observation::uncertain";
    "Observation::definitely absent" ].

Definition RELATION_TYPES : list string :=
  [ "suggestive_of"; "located_at"; "modify" ].

(** [__init__] *)
Definition init : RadGraphAnalyzer :=
  {| pneumonia_terms :=
       [ "consolidation"; "opacity"; "infiltrate"; "pneumonia";
         "airspace disease"; "ground glass"; "patchy"; "focal" ] |}.

(** ** The parser *)

(** The entity dict of one item of the mapping; the keys are read in the
    order of the dict display: start_ix, end_ix, label. *)
Definition make_entity (text : string) (entity_id : string)
    (entity_info : entity_info) : result entity :=
  let* start_ix := getitem "start_ix" (i_start_ix entity_info) in
  let* end_ix := getitem "end_ix" (i_end_ix entity_info) in
  let* label := getitem "label" (i_label entity_info) in
  Ok {| e_id := entity_id;
        e_text := PyStr.join " " (py_slice (PyStr.split text) start_ix (end_ix + 1));
        e_type := label;
        e_start_ix := start_ix;
        e_end_ix := end_ix |}.

(** The relation dicts of one item: [entity_info.get('relations', [])]. *)
Definition make_relations (entity_id : string) (entity_info : entity_info)
  : list relation :=
  map (fun '(rel_type, target_id) =>
         {| r_source := entity_id; r_target := target_id; r_type := rel_type |})
      (default [] (i_relations entity_info)).

(** The loop over [entities_dict.items()], appending to both lists. *)
Fixpoint parse_items (text : string) (items : list (string * entity_info))
    (entities : list entity) (relations : list relation)
  : result (list entity * list relation) :=
  match items with
  | [] => Ok (entities, relations)
  | (entity_id, entity_info) :: items' =>
      (let* e := make_entity text entity_id entity_info in
       parse_items text items' (entities ++ [e])
                   (relations ++ make_relations entity_id entity_info))
  end.

Definition parse_radgraph_format (self : RadGraphAnalyzer) (x : extract)
  : result (list entity * list relation) :=
  let* text := getitem "text" (x_text x) in
  let* entities_dict := getitem "entities" (x_entities x) in
  parse_items text entities_dict [] [].

(** ** The certainty histogram *)

(** [d[key] += 1] on a [defaultdict(int)]. *)
Definition incr (key : string) (d : gmap string nat) : gmap string nat :=
  <[key := S (default O (d !! key))]> d.

Fixpoint certainty_loop (entities : list entity) (counts : gmap string nat)
  : result (gmap string nat) :=
  match entities with
  | [] => Ok counts
  | e :: entities' =>
      if PyStr.contains "::" (e_type e) then
        match PyStr.split_sep "::" (e_type e) !! 1%nat with
        | Some c => certainty_loop entities' (incr c counts)
        | None => Raise IndexError
        end
      else certainty_loop entities' counts
  end.

Definition analyze_certainty (self : RadGraphAnalyzer) (entities : list entity)
  : result (gmap string nat) :=
  certainty_loop entities ∅.

(** ** The pattern analyzer *)

(** [d[key].append(v)] on a [defaultdict(list)]. *)
Definition append_to (key : string) (v : item) (d : gmap string (list item))
  : gmap string (list item) :=
  <[key := default [] (d !! key) ++ [v]]> d.

(** [{e['id']: e for e in entities}]: a later entity replaces an earlier one
    of the same id. *)
Definition make_entity_map (entities : list entity) : gmap string entity :=
  foldl (fun m e => <[e_id e := e]> m) ∅ entities.

(** [entity_map[key]] *)
Definition lookup_entity (entity_map : gmap string entity) (key : string)
  : result entity :=
  match entity_map !! key with
  | Some e => Ok e
  | None => Raise (KeyError key)
  end.

(** [any(term in text.lower() for term in self.pneumonia_terms)] *)
Definition any_term (self : RadGraphAnalyzer) (text : string) : bool :=
  existsb (fun term => PyStr.contains term (PyStr.lower text))
          (pneumonia_terms self).

(** The body of the loop over the relations. *)
Definition dispatch (self : RadGraphAnalyzer) (entity_map : gmap string entity)
    (p : patterns) (r : relation) : result patterns :=
  let* source := lookup_entity entity_map (r_source r) in
  let* target := lookup_entity entity_map (r_target r) in
  if String.eqb (r_type r) "located_at" then
    if PyStr.contains "Observation" (e_type source) then
      Ok {| findings := append_to (e_text source) (Str (e_text target)) (findings p);
            locations := locations p;
            modifiers := modifiers p |}
    else Ok p
  else if String.eqb (r_type r) "modify" then
    if PyStr.contains "Observation" (e_type source)
       && PyStr.contains "Observation" (e_type target) then
      Ok {| findings := findings p;
            locations := locations p;
            modifiers := append_to (e_text target) (Str (e_text source)) (modifiers p) |}
    else Ok p
  else if String.eqb (r_type r) "suggestive_of" then
    if any_term self (e_text source) then
      Ok {| findings := append_to "suggestive_patterns"
                          (Tup (e_text source) (e_text target)) (findings p);
            locations := locations p;
            modifiers := modifiers p |}
    else Ok p
  else Ok p.

Fixpoint patterns_loop (self : RadGraphAnalyzer) (entity_map : gmap string entity)
    (relations : list relation) (p : patterns) : result patterns :=
  match relations with
  | [] => Ok p
  | r :: relations' =>
      (let* p' := dispatch self entity_map p r in
       patterns_loop self entity_map relations' p')
  end.

Definition empty_patterns : patterns :=
  {| findings := ∅; locations := ∅; modifiers := ∅ |}.

Definition find_pneumonia_patterns (self : RadGraphAnalyzer)
    (entities : list entity) (relations : list relation) : result patterns :=
  patterns_loop self (make_entity_map entities) relations empty_patterns.

(** ** The directed graph of [extract_features]

    What the code uses of [networkx.DiGraph]: the attribute dict of each
    node (empty for a node that only an edge introduced, the entity dict
    otherwise) and, for each node, its successors with the edge type, in
    the order in which they were first added. *)

Record DiGraph : Type := {
  g_node : gmap string (option entity);
  g_succ : gmap string (list (string * string))
}.

Definition empty_graph : DiGraph := {| g_node := ∅; g_succ := ∅ |}.

(** [G.add_node(n, **entity)] *)
Definition add_node (n : string) (e : entity) (G : DiGraph) : DiGraph :=
  {| g_node := <[n := Some e]> (g_node G);
     g_succ := match g_succ G !! n with
               | Some _ => g_succ G
               | None => <[n := []]> (g_succ G)
               end |}.

(** The implicit creation of an endpoint by [add_edge]. *)
Definition touch_node (n : string) (G : DiGraph) : DiGraph :=
  match g_succ G !! n with
  | Some _ => G
  | None => {| g_node := <[n := None]> (g_node G);
               g_succ := <[n := []]> (g_succ G) |}
  end.

(** [nbrs[v] = {'type': ty}] on the ordered successor dict: an existing key
    keeps its place. *)
Fixpoint set_succ (v ty : string) (nbrs : list (string * string))
  : list (string * string) :=
  match nbrs with
  | [] => [(v, ty)]
  | (w, ty') :: nbrs' =>
      if String.eqb w v then (w, ty) :: nbrs' else (w, ty') :: set_succ v ty nbrs'
  end.

(** [G.add_edge(u, v, type=ty)] *)
Definition add_edge (u v ty : string) (G : DiGraph) : DiGraph :=
  let G1 := touch_node v (touch_node u G) in
  {| g_node := g_node G1;
     g_succ := <[u := set_succ v ty (default [] (g_succ G1 !! u))]> (g_succ G1) |}.

(** [G.edges(n, data=True)], as the pairs (neighbor, type). *)
Definition out_edges (G : DiGraph) (n : string) : list (string * string) :=
  default [] (g_succ G !! n).

Definition build_graph (entities : list entity) (relations : list relation)
  : DiGraph :=
  let G := foldl (fun G e => add_node (e_id e) e G) empty_graph entities in
  foldl (fun G r => add_edge (r_source r) (r_target r) (r_type r) G) G relations.

(** ** The feature record *)

Definition default_observation : observation :=
  {| o_text := ""; o_certainty := "";
     o_locations := []; o_modifiers := []; o_suggestions := [] |}.

(** The loop over the out-edges of one observation. *)
Fixpoint edges_loop (G : DiGraph) (edges : list (string * string))
    (o : observation) : result observation :=
  match edges with
  | [] => Ok o
  | (neighbor, ty) :: edges' =>
      (let* neighbor_data := getitem neighbor (g_node G !! neighbor) in
       let text := getitem "text" (e_text <$> neighbor_data) in
       let* o' :=
         if String.eqb ty "located_at" then
           (let* t := text in
            Ok {| o_text := o_text o; o_certainty := o_certainty o;
                  o_locations := o_locations o ++ [t];
                  o_modifiers := o_modifiers o;
                  o_suggestions := o_suggestions o |})
         else if String.eqb ty "modify" then
           (let* t := text in
            Ok {| o_text := o_text o; o_certainty := o_certainty o;
                  o_locations := o_locations o;
                  o_modifiers := o_modifiers o ++ [t];
                  o_suggestions := o_suggestions o |})
         else if String.eqb ty "suggestive_of" then
           (let* t := text in
            Ok {| o_text := o_text o; o_certainty := o_certainty o;
                  o_locations := o_locations o;
                  o_modifiers := o_modifiers o;
                  o_suggestions := o_suggestions o ++ [t] |})
         else Ok o in
       edges_loop G edges' o')
  end.

(** The loop over the entities that fills [observations]. *)
Fixpoint observations_loop (G : DiGraph) (entities : list entity)
    (observations : gmap string observation)
  : result (gmap string observation) :=
  match entities with
  | [] => Ok observations
  | e :: entities' =>
      if PyStr.contains "Observation" (e_type e) then
        let obs_id := e_id e in
        let o := default default_observation (observations !! obs_id) in
        (let* certainty :=
           match PyStr.split_sep "::" (e_type e) !! 1%nat with
           | Some c => Ok c
           | None => Raise IndexError
           end in
         let o1 := {| o_text := e_text e; o_certainty := certainty;
                      o_locations := o_locations o;
                      o_modifiers := o_modifiers o;
                      o_suggestions := o_suggestions o |} in
         let* o2 := edges_loop G (out_edges G obs_id) o1 in
         observations_loop G entities' (<[obs_id := o2]> observations))
      else observations_loop G entities' observations
  end.

(** [len([e for e in entities if word in e['type']])] *)
Definition count_type (word : string) (entities : list entity) : nat :=
  length (filter (fun e => PyStr.contains word (e_type e) = true) entities).

Definition extract_features (self : RadGraphAnalyzer) (x : extract)
  : result features :=
  let* parsed := parse_radgraph_format self x in
  let '(entities, relations) := parsed in
  let G := build_graph entities relations in
  let* patterns := find_pneumonia_patterns self entities relations in
  let* certainty := analyze_certainty self entities in
  let* observations := observations_loop G entities ∅ in
  Ok {| f_observations := observations;
        f_patterns := patterns;
        f_certainty_analysis := certainty;
        f_graph_metrics :=
          {| num_entities := length entities;
             num_relations := length relations;
             num_anatomical_sites := count_type "Anatomy" entities;
             num_observations := count_type "Observation" entities |} |}.

(** ** The sample of [main] *)

Definition sample_extract : extract :=
  {| x_text := Some "no evidence of acute cardiopulmonary process moderate hiatal hernia";
     x_entities := Some
       [ ("1", {| i_tokens := Some "acute";
                  i_label := Some "Observation::definitely absent";
                  i_start_ix := Some 3; i_end_ix := Some 3;
                  i_relations := Some [("modify", "3")] |});
         ("2", {| i_tokens := Some "cardiopulmonary";
                  i_label := Some "Anatomy::definitely present";
                  i_start_ix := Some 4; i_end_ix := Some 4;
                  i_relations := Some [] |});
         ("3", {| i_tokens := Some "process";
                  i_label := Some "Observation::definitely absent";
                  i_start_ix := Some 5; i_end_ix := Some 5;
                  i_relations := Some [("located_at", "2")] |});
         ("4", {| i_tokens := Some "moderate";
                  i_label := Some "Observation::definitely present";
                  i_start_ix := Some 6; i_end_ix := Some 6;
                  i_relations := Some [("modify", "5")] |});
         ("5", {| i_tokens := Some "hiatal hernia";
                  i_label := Some "Observation::definitely present";
                  i_start_ix := Some 7; i_end_ix := Some 8;
                  i_relations := Some [] |}) ] |}.

(** ** Auxiliary definitions for the statements *)

(** No character of [s] is white space. *)
Fixpoint no_space (s : string) : bool :=
  match s with
  | EmptyString => true
  | String c s' => negb (PyStr.isspace c) && no_space s'
  end.

(** A word: what [split] can return. *)
Definition is_word (w : string) : Prop :=
  w <> EmptyString /\ no_space w = true.

(** The three keys that the parser reads from every item. *)
Definition has_keys (info : entity_info) : Prop :=
  is_Some (i_start_ix info) /\ is_Some (i_end_ix info) /\ is_Some (i_label info).

(** An extract whose only entity has a span beyond the nine tokens of the
    text. *)
Definition out_of_range_extract : extract :=
  {| x_text := Some "no evidence of acute cardiopulmonary process moderate hiatal hernia";
     x_entities := Some
       [ ("1", {| i_tokens := Some "pneumonia";
                  i_label := Some "Observation::definitely present";
                  i_start_ix := Some 20; i_end_ix := Some 20;
                  i_relations := Some [] |}) ] |}.

(** An extract whose only entity has no start_ix. *)
Definition missing_index_extract : extract :=
  {| x_text := Some "patchy opacity";
     x_entities := Some
       [ ("1", {| i_tokens := Some "opacity";
                  i_label := Some "Observation::definitely present";
                  i_start_ix := None; i_end_ix := Some 1;
                  i_relations := None |}) ] |}.

(** The entities that the parser returns on the sample. *)
Definition sample_entities : list entity :=
  [ {| e_id := "1"; e_text := "acute";
       e_type := "Observation::definitely absent"; e_start_ix := 3; e_end_ix := 3 |};
    {| e_id := "2"; e_text := "cardiopulmonary";
       e_type := "Anatomy::definitely present"; e_start_ix := 4; e_end_ix := 4 |};
    {| e_id := "3"; e_text := "process";
       e_type := "Observation::definitely absent"; e_start_ix := 5; e_end_ix := 5 |};
    {| e_id := "4"; e_text := "moderate";
       e_type := "Observation::definitely present"; e_start_ix := 6; e_end_ix := 6 |};
    {| e_id := "5"; e_text := "hiatal hernia";
       e_type := "Observation::definitely present"; e_start_ix := 7; e_end_ix := 8 |} ].

(** The relations that the parser returns on the sample. *)
Definition sample_relations : list relation :=
  [ {| r_source := "1"; r_target := "3"; r_type := "modify" |};
    {| r_source := "3"; r_target := "2"; r_type := "located_at" |};
    {| r_source := "4"; r_target := "5"; r_type := "modify" |} ].

(** An extract whose only relation points at an id that no entity has. *)
Definition dangling_extract : extract :=
  {| x_text := Some "patchy opacity";
     x_entities := Some
       [ ("1", {| i_tokens := Some "patchy";
                  i_label := Some "Observation::definitely present";
                  i_start_ix := Some 0; i_end_ix := Some 0;
                  i_relations := Some [("modify", "9")] |}) ] |}.

(** An extract with a label outside [ENTITY_TYPES] and a relation kind
    outside [RELATION_TYPES]. *)
Definition unknown_labels_extract : extract :=
  {| x_text := Some "patchy opacity";
     x_entities := Some
       [ ("1", {| i_tokens := Some "patchy";
                  i_label := Some "Finding::probable";
                  i_start_ix := Some 0; i_end_ix := Some 0;
                  i_relations := Some [("causes", "2")] |});
         ("2", {| i_tokens := Some "opacity";
                  i_label := Some "Observation::definitely present";
                  i_start_ix := Some 1; i_end_ix := Some 1;
                  i_relations := Some [] |}) ] |}.

(** The lowercased text contains a term of the vocabulary as a substring. *)
Definition mentions_term (self : RadGraphAnalyzer) (text : string) : Prop :=
  exists term pre post,
    term ∈ pneumonia_terms self /\
    PyStr.lower text = pre +:+ term +:+ post.

(** Two observations; the text of the first has a capital letter and a
    second word. *)
Definition consolidation_entities : list entity :=
  [ {| e_id := "1"; e_text := "Consolidation noted";
       e_type := "Observation::definitely present";
       e_start_ix := 0; e_end_ix := 1 |};
    {| e_id := "2"; e_text := "Pneumonia";
       e_type := "Observation::uncertain";
       e_start_ix := 2; e_end_ix := 2 |} ].

(** A run that iterates the set of terms in the opposite order. *)
Definition reversed_run : RadGraphAnalyzer :=
  {| pneumonia_terms := rev (pneumonia_terms init) |}.

(** The sum of the values of a histogram. *)
Definition histogram_total (h : gmap string nat) : nat :=
  map_fold (fun _ n acc => (n + acc)%nat) O h.

(** The number of entities whose type contains the separator. *)
Definition count_separator (entities : list entity) : nat :=
  count_type "::" entities.

(** An extract whose only entity names the last token by the index -1. *)
Definition last_token_extract : extract :=
  {| x_text := Some "patchy opacity";
     x_entities := Some
       [ ("1", {| i_tokens := Some "opacity";
                  i_label := Some "Observation::definitely present";
                  i_start_ix := Some (-1); i_end_ix := Some (-1);
                  i_relations := None |}) ] |}.

(** Both endpoints of a relation are ids of the given entities. *)
Definition endpoints_known (es : list entity) (r : relation) : Prop :=
  r_source r ∈ map e_id es /\ r_target r ∈ map e_id es.

(** The shape of a pattern bundle over the entity texts [texts]: no key
    holds an empty list; a findings key is an entity text or the reserved
    key; a pair sits under the reserved key only; the modifiers hold texts
    only, under entity texts; every recorded text is an entity text. *)
Definition bundle_shape (texts : list string) (p : patterns) : Prop :=
  (forall k l, findings p !! k = Some l ->
     l <> [] /\
     (k ∈ texts \/ k = "suggestive_patterns") /\
     forall it, it ∈ l ->
       match it with
       | Str s => k ∈ texts /\ s ∈ texts
       | Tup s t => k = "suggestive_patterns" /\ s ∈ texts /\ t ∈ texts
       end) /\
  (forall k l, modifiers p !! k = Some l ->
     l <> [] /\ k ∈ texts /\
     forall it, it ∈ l -> exists s, it = Str s /\ s ∈ texts).

(** The number of items held by one mapping of a bundle. *)
Definition items_total (d : gmap string (list item)) : nat :=
  map_fold (fun _ l acc => (length l + acc)%nat) O d.

(** The number of items held by a bundle. *)
Definition bundle_size (p : patterns) : nat :=
  (items_total (findings p) + items_total (locations p)
   + items_total (modifiers p))%nat.

(** The certainty that the histogram counts for an entity, if any: the
    second piece of its type when the type contains the separator. *)
Definition certainty_of (e : entity) : option string :=
  if PyStr.contains "::" (e_type e)
  then PyStr.split_sep "::" (e_type e) !! 1%nat
  else None.

(** No character of [s] is a colon. *)
Fixpoint no_colon (s : string) : bool :=
  match s with
  | EmptyString => true
  | String c s' => negb (Ascii.eqb ":" c) && no_colon s'
  end.

(** The graph holds the entities of [m] as its nodes, with their dicts as
    attributes, and every edge ends at one of them. *)
Definition graph_inv (m : gmap string entity) (G : DiGraph) : Prop :=
  g_node G = Some <$> m /\
  (forall n, is_Some (g_succ G !! n) <-> is_Some (m !! n)) /\
  (forall u l v ty, g_succ G !! u = Some l -> (v, ty) ∈ l -> is_Some (m !! v)).

(** An entity that is an Observation by the test of [extract_features] has
    the separator in its type. *)
Definition observation_has_certainty (e : entity) : Prop :=
  PyStr.contains "Observation" (e_type e) = true ->
  PyStr.contains "::" (e_type e) = true.

(** An extract whose second entity is an Observation without a
    certainty. *)
Definition bare_observation_extract : extract :=
  {| x_text := Some "patchy opacity";
     x_entities := Some
       [ ("1", {| i_tokens := Some "patchy";
                  i_label := Some "Observation::uncertain";
                  i_start_ix := Some 0; i_end_ix := Some 0;
                  i_relations := Some [("modify", "2")] |});
         ("2", {| i_tokens := Some "opacity";
                  i_label := Some "Observation";
                  i_start_ix := Some 1; i_end_ix := Some 1;
                  i_relations := None |}) ] |}.

(** The record printed by [main] for the sample. *)
Definition sample_features : features :=
  {| f_observations :=
       <[ "1" := {| o_text := "acute"; o_certainty := "definitely absent";
                    o_locations := []; o_modifiers := ["process"];
                    o_suggestions := [] |} ]>
       (<[ "3" := {| o_text := "process"; o_certainty := "definitely absent";
                     o_locations := ["cardiopulmonary"]; o_modifiers := [];
                     o_suggestions := [] |} ]>
       (<[ "4" := {| o_text := "moderate"; o_certainty := "definitely present";
                     o_locations := []; o_modifiers := ["hiatal hernia"];
                     o_suggestions := [] |} ]>
       {[ "5" := {| o_text := "hiatal hernia"; o_certainty := "definitely present";
                    o_locations := []; o_modifiers := [];
                    o_suggestions := [] |} ]}));
     f_patterns :=
       {| findings := {[ "process" := [Str "cardiopulmonary"] ]};
          locations := ∅;
          modifiers := <[ "process" := [Str "acute"] ]>
                         {[ "hiatal hernia" := [Str "moderate"] ]} |};
     f_certainty_analysis :=
       <[ "definitely absent" := 2%nat ]> {[ "definitely present" := 3%nat ]};
     f_graph_metrics :=
       {| num_entities := 5; num_relations := 3;
          num_anatomical_sites := 1; num_observations := 4 |} |}.

(** The texts of the entities at the end of the edges of kind [kind], in
    the order of the edges. *)
Definition edge_texts (m : gmap string entity) (kind : string)
    (edges : list (string * string)) : list string :=
  omap (fun edge => if decide (edge.2 = kind)
                    then e_text <$> m !! edge.1 else None) edges.

(** The texts of the targets of the relations of kind [kind] that start at
    the entity [id], in the order of the relations. *)
Definition neighbor_texts (es : list entity) (rs : list relation)
    (id kind : string) : list string :=
  omap (fun r => if decide (r_source r = id /\ r_type r = kind)
                 then e_text <$> make_entity_map es !! r_target r else None) rs.

(** The first of the keys start_ix, end_ix, label that an item lacks. *)
Definition first_missing_key (info : entity_info) : option string :=
  match i_start_ix info, i_end_ix info, i_label info with
  | None, _, _ => Some "start_ix"
  | Some _, None, _ => Some "end_ix"
  | Some _, Some _, None => Some "label"
  | Some _, Some _, Some _ => None
  end.

(** The number of relations that the items of a mapping declare. *)
Definition declared_relations (items : list (string * entity_info)) : nat :=
  sum_list (map (fun it => length (default [] (i_relations it.2))) items).

(** Every list of [d] is kept in [d'], possibly with more items after
    it. *)
Definition lists_extended (d d' : gmap string (list item)) : Prop :=
  forall k l, d !! k = Some l -> exists l', d' !! k = Some (l ++ l').

(** An extract whose observation has two relations to the same entity. *)
Definition parallel_extract : extract :=
  {| x_text := Some "opacity lung";
     x_entities := Some
       [ ("1", {| i_tokens := Some "opacity";
                  i_label := Some "Observation::definitely present";
                  i_start_ix := Some 0; i_end_ix := Some 0;
                  i_relations := Some [("modify", "2"); ("located_at", "2")] |});
         ("2", {| i_tokens := Some "lung";
                  i_label := Some "Anatomy::definitely present";
                  i_start_ix := Some 1; i_end_ix := Some 1;
                  i_relations := Some [] |}) ] |}.

(** * Properties *)

(** Membership and non-membership in a list given by its elements. *)
Ltac in_list :=
  solve [repeat first [apply list_elem_of_here | apply list_elem_of_further]].

Ltac not_in_list :=
  let H := fresh "H" in
  intros H;
  repeat (apply elem_of_cons in H as [H|H]; [discriminate H|]);
  apply elem_of_nil in H; exact H.

(** ** The primitives on examples *)

Example split_sample :
  PyStr.split "  no evidence	of  acute " = ["no"; "evidence"; "of"; "acute"].
Proof. reflexivity. Qed.

Example split_sep_sample :
  PyStr.split_sep "::" "a::b:::c::" = ["a"; "b"; ":c"; ""].
Proof. reflexivity. Qed.

Example slice_sample :
  py_slice [1; 2; 3; 4; 5] 1 3 = [2; 3] /\
  py_slice [1; 2; 3; 4; 5] (-2) 9 = [4; 5] /\
  py_slice [1; 2; 3; 4; 5] 3 1 = [] /\
  py_slice [1; 2; 3; 4; 5] 7 8 = [].
Proof. repeat split; reflexivity. Qed.

(** ** The sample document *)

(** C1: on the sample document of [main], [extract_features] returns a
    record whose pattern bundle has findings {process: [cardiopulmonary]}
    and modifiers {process: [acute], hiatal hernia: [moderate]}, whose
    certainty histogram is {definitely absent: 2, definitely present: 3},
    and whose graph metrics are 5 entities, 3 relations, 1 anatomical site
    and 4 observations. *)
Theorem sample_extract_features :
  exists f : features,
    extract_features init sample_extract = Ok f /\
    findings (f_patterns f) = {[ "process" := [Str "cardiopulmonary"] ]} /\
    modifiers (f_patterns f) =
      <[ "process" := [Str "acute"] ]>
        {[ "hiatal hernia" := [Str "moderate"] ]} /\
    f_certainty_analysis f =
      <[ "definitely absent" := 2%nat ]> {[ "definitely present" := 3%nat ]} /\
    f_graph_metrics f =
      {| num_entities := 5; num_relations := 3;
         num_anatomical_sites := 1; num_observations := 4 |}.
Proof.
  eexists. split.
  - vm_compute. reflexivity.
  - repeat split; vm_compute; reflexivity.
Qed.

(** ** Words, [split] and [join] *)

Section Words.

Import PyStr.

Lemma append_nil_l (s : string) : "" +:+ s = s.
Proof. reflexivity. Qed.

Lemma append_cons (c : ascii) (s t : string) :
  String c s +:+ t = String c (s +:+ t).
Proof. reflexivity. Qed.

Lemma append_empty_r (s : string) : s +:+ "" = s.
Proof.
  induction s as [|c s IH]; [reflexivity|]. now rewrite append_cons, IH.
Qed.

Lemma append_assoc (s1 s2 s3 : string) :
  (s1 +:+ s2) +:+ s3 = s1 +:+ (s2 +:+ s3).
Proof.
  induction s1 as [|c s1 IH]; [reflexivity|]. now rewrite !append_cons, IH.
Qed.

Lemma snoc_append (cur : string) (c : ascii) (w : string) :
  snoc cur c +:+ w = cur +:+ String c w.
Proof. unfold snoc. now rewrite append_assoc. Qed.

Lemma snoc_not_empty (cur : string) (c : ascii) : snoc cur c <> EmptyString.
Proof. destruct cur; discriminate. Qed.

Lemma no_space_snoc (cur : string) (c : ascii) :
  no_space cur = true -> isspace c = false -> no_space (snoc cur c) = true.
Proof.
  intros Hcur Hc. unfold snoc. induction cur as [|a cur IH].
  - rewrite append_nil_l. simpl. now rewrite Hc.
  - rewrite append_cons. simpl in *.
    apply andb_prop in Hcur as [Ha Hcur]. rewrite Ha. simpl. now apply IH.
Qed.

(** The scan passes over a stretch without white space by extending the
    word being read. *)
Lemma split_ws_no_space (w : string) :
  forall cur s, no_space w = true ->
    split_ws cur (w +:+ s) = split_ws (cur +:+ w) s.
Proof.
  induction w as [|c w IH]; intros cur s Hw.
  - now rewrite append_nil_l, append_empty_r.
  - simpl in Hw. apply andb_prop in Hw as [Hc Hw].
    apply negb_true_iff in Hc.
    rewrite append_cons. simpl. rewrite Hc.
    rewrite IH by assumption. now rewrite snoc_append.
Qed.

(** Every piece returned by the scan is a word. *)
Lemma split_ws_words (s : string) :
  forall cur, no_space cur = true -> Forall is_word (split_ws cur s).
Proof.
  induction s as [|c s IH]; intros cur Hcur; simpl.
  - destruct cur; [constructor|].
    constructor; [|constructor]. split; [discriminate | assumption].
  - destruct (isspace c) eqn:Hc.
    + destruct cur.
      * now apply IH.
      * constructor; [split; [discriminate | assumption] | now apply IH].
    + apply IH. now apply no_space_snoc.
Qed.

Lemma split_words (s : string) : Forall is_word (split s).
Proof. now apply split_ws_words. Qed.

(** Joining words by one space and splitting again gives the words back. *)
Lemma split_join (l : list string) :
  Forall is_word l -> split (join " " l) = l.
Proof.
  unfold split. induction l as [|w l IH]; intros Hl; [reflexivity|].
  apply Forall_cons in Hl as [[Hne Hw] Hl].
  destruct l as [|w' l].
  - simpl. replace (split_ws "" w) with (split_ws "" (w +:+ ""))
      by now rewrite append_empty_r.
    rewrite split_ws_no_space by assumption.
    rewrite append_nil_l. simpl.
    destruct w; [contradiction | reflexivity].
  - change (join " " (w :: w' :: l)) with (w +:+ (" " +:+ join " " (w' :: l))).
    rewrite split_ws_no_space by assumption.
    rewrite append_nil_l, append_cons, append_nil_l.
    simpl split_ws at 1.
    destruct w; [contradiction|]. f_equal. now apply IH.
Qed.

End Words.

(** ** Slices *)

Lemma py_slice_length {A} (l : list A) (lo hi : Z) :
  0 <= lo -> lo <= hi -> hi <= Z.of_nat (length l) ->
  Z.of_nat (length (py_slice l lo hi)) = hi - lo.
Proof.
  intros H0 H1 H2. unfold py_slice, adjust_index.
  destruct (Z.ltb_spec lo 0); [lia|].
  destruct (Z.ltb_spec hi 0); [lia|].
  rewrite length_take, length_drop. lia.
Qed.

Lemma py_slice_Forall {A} (P : A -> Prop) (l : list A) (lo hi : Z) :
  Forall P l -> Forall P (py_slice l lo hi).
Proof. intros H. unfold py_slice. now apply Forall_take, Forall_drop. Qed.

(** ** The parser, characterised *)

Lemma make_entity_Ok text entity_id info e :
  make_entity text entity_id info = Ok e ->
  e_id e = entity_id /\
  i_start_ix info = Some (e_start_ix e) /\
  i_end_ix info = Some (e_end_ix e) /\
  i_label info = Some (e_type e) /\
  e_text e = PyStr.join " "
               (py_slice (PyStr.split text) (e_start_ix e) (e_end_ix e + 1)).
Proof.
  unfold make_entity.
  destruct (i_start_ix info), (i_end_ix info), (i_label info);
    simpl; try discriminate.
  intros [= <-]. simpl. repeat split.
Qed.

(** The produced lists, item by item and in the order of the mapping. *)
Lemma parse_items_Ok text items :
  forall es0 rs0 es rs,
    parse_items text items es0 rs0 = Ok (es, rs) ->
    exists es',
      es = es0 ++ es' /\
      Forall2 (fun it e => make_entity text it.1 it.2 = Ok e) items es' /\
      rs = rs0 ++ concat (map (fun it => make_relations it.1 it.2) items).
Proof.
  induction items as [|[entity_id info] items IH]; intros es0 rs0 es rs H; simpl in H.
  - injection H as <- <-. exists []. rewrite !app_nil_r. repeat split. constructor.
  - destruct (make_entity text entity_id info) as [e|] eqn:He; [|discriminate].
    simpl in H. apply IH in H as (es' & -> & HF & ->).
    exists (e :: es'). rewrite <- !app_assoc. simpl. repeat split.
    constructor; assumption.
Qed.

Lemma parse_radgraph_format_Ok self x es rs :
  parse_radgraph_format self x = Ok (es, rs) ->
  exists text items,
    x_text x = Some text /\ x_entities x = Some items /\
    Forall2 (fun it e => make_entity text it.1 it.2 = Ok e) items es /\
    rs = concat (map (fun it => make_relations it.1 it.2) items).
Proof.
  unfold parse_radgraph_format.
  destruct (x_text x) as [text|]; [|discriminate].
  destruct (x_entities x) as [items|]; [|discriminate]. simpl.
  intros H. apply parse_items_Ok in H as (es' & -> & HF & ->).
  exists text, items. repeat split; assumption.
Qed.

Lemma parse_entity_origin self x es rs e :
  parse_radgraph_format self x = Ok (es, rs) -> e ∈ es ->
  exists text it,
    x_text x = Some text /\ make_entity text it.1 it.2 = Ok e.
Proof.
  intros H He.
  apply parse_radgraph_format_Ok in H as (text & items & Ht & _ & HF & _).
  apply list_elem_of_lookup in He as [i Hi].
  destruct (Forall2_lookup_r _ _ _ _ _ HF Hi) as (it & _ & Hit).
  now exists text, it.
Qed.

(** Every exception of the parser loop is a [KeyError] on one of the three
    keys read from an item. *)
Lemma parse_items_Raise text items :
  forall es0 rs0 ex,
    parse_items text items es0 rs0 = Raise ex ->
    exists k, ex = KeyError k /\ k ∈ ["start_ix"; "end_ix"; "label"].
Proof.
  induction items as [|[entity_id info] items IH]; intros es0 rs0 ex H; simpl in H.
  - discriminate.
  - destruct (make_entity text entity_id info) as [e|ex'] eqn:He; simpl in H.
    + now apply IH in H.
    + injection H as <-. unfold make_entity in He.
      destruct (i_start_ix info); simpl in He;
        [|injection He as <-; eexists; split; [reflexivity | in_list]].
      destruct (i_end_ix info); simpl in He;
        [|injection He as <-; eexists; split; [reflexivity | in_list]].
      destruct (i_label info); simpl in He;
        [discriminate|injection He as <-; eexists; split; [reflexivity | in_list]].
Qed.

Lemma parse_items_total text items :
  forall es0 rs0,
    Forall (fun it => has_keys it.2) items ->
    exists es, parse_items text items es0 rs0 =
               Ok (es, rs0 ++ concat (map (fun it => make_relations it.1 it.2) items)).
Proof.
  induction items as [|[entity_id info] items IH]; intros es0 rs0 HF; simpl.
  - exists es0. now rewrite app_nil_r.
  - apply Forall_cons in HF as [([s Hs] & [e He] & [l Hl]) HF]. simpl in *.
    unfold make_entity. rewrite Hs, He, Hl. simpl.
    destruct (IH (es0 ++ [{| e_id := entity_id;
                             e_text := PyStr.join " " (py_slice (PyStr.split text) s (e + 1));
                             e_type := l; e_start_ix := s; e_end_ix := e |}])
                 (rs0 ++ make_relations entity_id info) HF) as [es Hes].
    exists es. rewrite Hes. now rewrite <- app_assoc.
Qed.

(** ** Token spans *)

(** C4, as stated, fails: a span that lies beyond the tokens of the text is
    parsed without any error, into an entity with the empty text. *)
Lemma out_of_range_span_is_parsed :
  length (PyStr.split "no evidence of acute cardiopulmonary process moderate hiatal hernia") = 9%nat /\
  parse_radgraph_format init out_of_range_extract =
    Ok ([ {| e_id := "1"; e_text := "";
             e_type := "Observation::definitely present";
             e_start_ix := 20; e_end_ix := 20 |} ], []).
Proof. split; reflexivity. Qed.

(** C4, amended: the parser never compares a span with the text. Whenever
    every item of the mapping carries start_ix, end_ix and label, parsing
    succeeds, with one entity per item whose text is the Python slice
    [start_ix : end_ix + 1] of the tokens joined by spaces (so empty or
    truncated when the span is out of range); when some item lacks start_ix
    or end_ix, parsing raises a KeyError on one of the keys it reads. *)
Theorem parse_span_unchecked (self : RadGraphAnalyzer) (text : string)
    (items : list (string * entity_info)) :
  let x := {| x_text := Some text; x_entities := Some items |} in
  (Forall (fun it => has_keys it.2) items ->
   exists es rs,
     parse_radgraph_format self x = Ok (es, rs) /\
     Forall2 (fun it e =>
                e_id e = it.1 /\
                i_start_ix it.2 = Some (e_start_ix e) /\
                i_end_ix it.2 = Some (e_end_ix e) /\
                e_text e = PyStr.join " "
                  (py_slice (PyStr.split text) (e_start_ix e) (e_end_ix e + 1)))
             items es) /\
  (Exists (fun it => i_start_ix it.2 = None \/ i_end_ix it.2 = None) items ->
   exists k,
     parse_radgraph_format self x = Raise (KeyError k) /\
     k ∈ ["start_ix"; "end_ix"; "label"]).
Proof.
  intros x. split.
  - intros HF.
    destruct (parse_items_total text items [] [] HF) as [es Hes].
    exists es, (concat (map (fun it => make_relations it.1 it.2) items)).
    split; [exact Hes|].
    apply parse_items_Ok in Hes as (es' & -> & HF2 & _). simpl.
    eapply Forall2_impl; [exact HF2|].
    intros it e He. apply make_entity_Ok in He. tauto.
  - intros HE.
    destruct (parse_radgraph_format self x) as [[es rs]|ex] eqn:Hp.
    + exfalso.
      apply parse_radgraph_format_Ok in Hp as (t & its & [= <-] & [= <-] & HF & _).
      apply Exists_exists in HE as (it & Hit & Hnone).
      apply list_elem_of_lookup in Hit as [i Hi].
      destruct (Forall2_lookup_l _ _ _ _ _ HF Hi) as (e & _ & He).
      apply make_entity_Ok in He as (_ & Hs & He & _).
      destruct Hnone; congruence.
    + apply parse_items_Raise in Hp as (k & -> & Hk). now exists k.
Qed.

Example missing_index_raises :
  parse_radgraph_format init missing_index_extract = Raise (KeyError "start_ix").
Proof. reflexivity. Qed.

Lemma parse_span_unchecked_witness :
  (exists es rs,
     parse_radgraph_format init out_of_range_extract = Ok (es, rs) /\
     Forall2 (fun it e =>
                e_id e = it.1 /\
                i_start_ix it.2 = Some (e_start_ix e) /\
                i_end_ix it.2 = Some (e_end_ix e) /\
                e_text e = PyStr.join " "
                  (py_slice
                     (PyStr.split "no evidence of acute cardiopulmonary process moderate hiatal hernia")
                     (e_start_ix e) (e_end_ix e + 1)))
             (default [] (x_entities out_of_range_extract)) es) /\
  (exists k,
     parse_radgraph_format init missing_index_extract = Raise (KeyError k) /\
     k ∈ ["start_ix"; "end_ix"; "label"]).
Proof.
  split.
  - apply (proj1 (parse_span_unchecked init
             "no evidence of acute cardiopulmonary process moderate hiatal hernia"
             (default [] (x_entities out_of_range_extract)))).
    repeat constructor; simpl; eauto.
  - apply (proj2 (parse_span_unchecked init "patchy opacity"
             (default [] (x_entities missing_index_extract)))).
    constructor. left. reflexivity.
Defined.

(** C5, as stated, fails: the entity parsed from a span beyond the text has
    an empty text, so zero tokens, while end_ix - start_ix + 1 is one. *)
Lemma token_count_out_of_range :
  exists es rs e,
    parse_radgraph_format init out_of_range_extract = Ok (es, rs) /\
    e ∈ es /\
    Z.of_nat (length (PyStr.split (e_text e))) <> e_end_ix e - e_start_ix e + 1.
Proof.
  eexists _, _, _. split; [reflexivity|]. split; [apply list_elem_of_here|].
  vm_compute. discriminate.
Qed.

(** C5, amended: for every entity produced by the parser whose span lies
    inside the text, that is 0 <= start_ix <= end_ix < number of tokens of
    the text, the number of tokens of its reconstructed text is
    end_ix - start_ix + 1. *)
Theorem token_count_in_range (self : RadGraphAnalyzer) (x : extract)
    (text : string) (es : list entity) (rs : list relation) (e : entity) :
  parse_radgraph_format self x = Ok (es, rs) ->
  x_text x = Some text ->
  e ∈ es ->
  0 <= e_start_ix e ->
  e_start_ix e <= e_end_ix e ->
  e_end_ix e < Z.of_nat (length (PyStr.split text)) ->
  Z.of_nat (length (PyStr.split (e_text e))) = e_end_ix e - e_start_ix e + 1.
Proof.
  intros Hp Ht He H0 H1 H2.
  destruct (parse_entity_origin _ _ _ _ _ Hp He) as (text' & it & Ht' & Hm).
  assert (text' = text) as -> by congruence.
  apply make_entity_Ok in Hm as (_ & _ & _ & _ & ->).
  rewrite split_join by apply py_slice_Forall, split_words.
  rewrite py_slice_length; lia.
Qed.

Lemma parse_sample :
  parse_radgraph_format init sample_extract = Ok (sample_entities, sample_relations).
Proof. reflexivity. Qed.

Lemma token_count_in_range_witness :
  Z.of_nat (length (PyStr.split "hiatal hernia")) = 8 - 7 + 1.
Proof.
  apply (token_count_in_range init sample_extract
           "no evidence of acute cardiopulmonary process moderate hiatal hernia"
           sample_entities sample_relations
           {| e_id := "5"; e_text := "hiatal hernia";
              e_type := "Observation::definitely present";
              e_start_ix := 7; e_end_ix := 8 |}).
  - reflexivity.
  - reflexivity.
  - unfold sample_entities. repeat (apply list_elem_of_here || apply list_elem_of_further).
  - simpl. lia.
  - simpl. lia.
  - vm_compute. reflexivity.
Defined.

(** ** The entity map and the relation loop *)

Lemma entity_map_fold (es : list entity) :
  forall (m : gmap string entity) (k : string),
    is_Some (foldl (fun m e => <[e_id e := e]> m) m es !! k) <->
    is_Some (m !! k) \/ k ∈ map e_id es.
Proof.
  induction es as [|e es IH]; intros m k; simpl.
  - rewrite elem_of_nil. tauto.
  - rewrite IH, elem_of_cons, lookup_insert_is_Some.
    destruct (decide (e_id e = k)); intuition congruence.
Qed.

(** The keys of the entity map are the ids of the entities. *)
Lemma entity_map_is_Some (es : list entity) (k : string) :
  is_Some (make_entity_map es !! k) <-> k ∈ map e_id es.
Proof.
  unfold make_entity_map. rewrite entity_map_fold, lookup_empty.
  split; [intros [[? [=]]|]; assumption | now right].
Qed.

Lemma entity_map_None (es : list entity) (k : string) :
  make_entity_map es !! k = None <-> k ∉ map e_id es.
Proof. rewrite <- entity_map_is_Some, eq_None_not_Some. reflexivity. Qed.

Lemma patterns_loop_app self m rs1 :
  forall rs2 p,
    patterns_loop self m (rs1 ++ rs2) p =
    let* p' := patterns_loop self m rs1 p in patterns_loop self m rs2 p'.
Proof.
  induction rs1 as [|r rs1 IH]; intros rs2 p; simpl; [reflexivity|].
  destruct (dispatch self m p r); simpl; [apply IH | reflexivity].
Qed.

(** One more relation at the end of the list is dispatched on the bundle
    built from the relations before it. *)
Lemma find_pneumonia_patterns_snoc self es rs r :
  find_pneumonia_patterns self es (rs ++ [r]) =
  let* p := find_pneumonia_patterns self es rs in
  dispatch self (make_entity_map es) p r.
Proof.
  unfold find_pneumonia_patterns. rewrite patterns_loop_app.
  destruct (patterns_loop self (make_entity_map es) rs empty_patterns);
    simpl; [|reflexivity].
  now destruct (dispatch self (make_entity_map es) a r).
Qed.

(** With both endpoints in the entity map the dispatch raises nothing and
    leaves [locations] as it is. *)
Lemma dispatch_known self m p r s t :
  m !! r_source r = Some s -> m !! r_target r = Some t ->
  exists p', dispatch self m p r = Ok p' /\ locations p' = locations p.
Proof.
  intros Hs Ht. unfold dispatch, lookup_entity. rewrite Hs, Ht. simpl.
  repeat match goal with
         | |- context [if ?b then _ else _] => destruct b
         end; eexists; split; reflexivity.
Qed.

Lemma dispatch_Ok self m p r p' :
  dispatch self m p r = Ok p' ->
  exists s t, m !! r_source r = Some s /\ m !! r_target r = Some t.
Proof.
  unfold dispatch, lookup_entity.
  destruct (m !! r_source r) as [s|]; [|discriminate].
  destruct (m !! r_target r) as [t|]; [|discriminate].
  intros _. now exists s, t.
Qed.

Lemma dispatch_dangling_target self m p r s :
  m !! r_source r = Some s -> m !! r_target r = None ->
  dispatch self m p r = Raise (KeyError (r_target r)).
Proof.
  intros Hs Ht. unfold dispatch, lookup_entity. now rewrite Hs, Ht.
Qed.

Lemma patterns_loop_locations self m rs :
  forall p p', patterns_loop self m rs p = Ok p' -> locations p' = locations p.
Proof.
  induction rs as [|r rs IH]; intros p p' H; simpl in H.
  - now injection H as <-.
  - destruct (dispatch self m p r) as [p1|] eqn:Hd; [|discriminate]. simpl in H.
    destruct (dispatch_Ok _ _ _ _ _ Hd) as (s & t & Hs & Ht).
    destruct (dispatch_known self m p r s t Hs Ht) as (p2 & Hd' & Hl).
    rewrite Hd in Hd'. injection Hd' as <-.
    rewrite (IH _ _ H). exact Hl.
Qed.

(** When every source is known, the loop raises a [KeyError] on the first
    target that is not. *)
Lemma patterns_loop_dangling self m rs :
  forall p,
    Forall (fun r => is_Some (m !! r_source r)) rs ->
    Exists (fun r => m !! r_target r = None) rs ->
    exists r, r ∈ rs /\ m !! r_target r = None /\
              patterns_loop self m rs p = Raise (KeyError (r_target r)).
Proof.
  induction rs as [|r rs IH]; intros p HF HE.
  - inversion HE.
  - apply Forall_cons in HF as [[s Hs] HF]. simpl.
    destruct (m !! r_target r) as [t|] eqn:Ht.
    + destruct (dispatch_known self m p r s t Hs Ht) as (p' & -> & _). simpl.
      apply Exists_cons in HE as [HE|HE]; [congruence|].
      destruct (IH p' HF HE) as (r' & Hin & Hnone & Hr).
      exists r'. split; [now apply list_elem_of_further | now split].
    + exists r. split; [apply list_elem_of_here|]. split; [assumption|].
      now rewrite (dispatch_dangling_target self m p r s Hs Ht).
Qed.

(** Every relation produced by the parser starts at a produced entity. *)
Lemma parse_sources self x es rs r :
  parse_radgraph_format self x = Ok (es, rs) -> r ∈ rs ->
  r_source r ∈ map e_id es.
Proof.
  intros Hp Hr.
  apply parse_radgraph_format_Ok in Hp as (text & items & _ & _ & HF & ->).
  apply list_elem_of_In, in_concat in Hr as (l & Hl & Hr).
  apply in_map_iff in Hl as (it & <- & Hit).
  apply list_elem_of_In, list_elem_of_lookup in Hit as [i Hi].
  destruct (Forall2_lookup_l _ _ _ _ _ HF Hi) as (e & He & Hm).
  apply make_entity_Ok in Hm as (Hid & _).
  unfold make_relations in Hr. apply in_map_iff in Hr as ([ty tgt] & <- & _).
  simpl. rewrite <- Hid. apply list_elem_of_fmap_2.
  eapply list_elem_of_lookup_2; eassumption.
Qed.

(** ** Relation endpoints *)

(** C3, as stated, fails: the parser returns, without any error, a relation
    whose target is not the id of any produced entity. *)
Lemma dangling_relation_is_parsed :
  exists es rs r,
    parse_radgraph_format init dangling_extract = Ok (es, rs) /\
    r ∈ rs /\ (r_target r ∉ map e_id es).
Proof.
  eexists _, _, _. split; [reflexivity|]. split; [apply list_elem_of_here|].
  simpl. not_in_list.
Qed.

(** C3, amended: every relation produced by the parser has its source among
    the ids of the produced entities, while its target is copied unchecked;
    when some produced relation has a target that is not the id of a produced
    entity, the parser still succeeds and it is the pattern analyzer, and with
    it [extract_features], that raises a KeyError on such a target. *)
Theorem relation_endpoints (self : RadGraphAnalyzer) (x : extract)
    (es : list entity) (rs : list relation) :
  parse_radgraph_format self x = Ok (es, rs) ->
  (forall r, r ∈ rs -> r_source r ∈ map e_id es) /\
  (Exists (fun r => r_target r ∉ map e_id es) rs ->
   exists r,
     r ∈ rs /\ (r_target r ∉ map e_id es) /\
     find_pneumonia_patterns self es rs = Raise (KeyError (r_target r)) /\
     extract_features self x = Raise (KeyError (r_target r))).
Proof.
  intros Hp. split.
  - intros r Hr. eapply parse_sources; eassumption.
  - intros HE.
    destruct (patterns_loop_dangling self (make_entity_map es) rs empty_patterns)
      as (r & Hin & Hnone & Hr).
    + apply Forall_forall. intros r Hr.
      apply entity_map_is_Some. eapply parse_sources; eassumption.
    + eapply Exists_impl; [exact HE|]. intros r Hr. now apply entity_map_None.
    + exists r. split; [assumption|]. split; [now apply entity_map_None|].
      split; [exact Hr|].
      unfold extract_features. rewrite Hp. simpl.
      unfold find_pneumonia_patterns. now rewrite Hr.
Qed.

Lemma relation_endpoints_witness :
  (forall r, r ∈ [ {| r_source := "1"; r_target := "9"; r_type := "modify" |} ] ->
             r_source r ∈ ["1"]) /\
  exists r,
    r ∈ [ {| r_source := "1"; r_target := "9"; r_type := "modify" |} ] /\
    (r_target r ∉ ["1"]) /\
    find_pneumonia_patterns init
      [ {| e_id := "1"; e_text := "patchy";
           e_type := "Observation::definitely present";
           e_start_ix := 0; e_end_ix := 0 |} ]
      [ {| r_source := "1"; r_target := "9"; r_type := "modify" |} ]
      = Raise (KeyError (r_target r)) /\
    extract_features init dangling_extract = Raise (KeyError (r_target r)).
Proof.
  destruct (relation_endpoints init dangling_extract
              [ {| e_id := "1"; e_text := "patchy";
                   e_type := "Observation::definitely present";
                   e_start_ix := 0; e_end_ix := 0 |} ]
              [ {| r_source := "1"; r_target := "9"; r_type := "modify" |} ]
              eq_refl) as [Hsrc Hdangling].
  split; [exact Hsrc|].
  apply Hdangling. constructor. simpl. not_in_list.
Defined.

(** ** Unknown labels and relation kinds *)

(** C6, as stated, fails: an extract with a label outside the entity types
    and a relation kind outside the relation kinds is processed to the end,
    with that label and that kind in the parsed lists and an empty pattern
    bundle. *)
Lemma unknown_labels_are_processed :
  ("Finding::probable" ∉ ENTITY_TYPES) /\
  ("causes" ∉ RELATION_TYPES) /\
  exists es rs f,
    parse_radgraph_format init unknown_labels_extract = Ok (es, rs) /\
    "Finding::probable" ∈ map e_type es /\
    "causes" ∈ map r_type rs /\
    extract_features init unknown_labels_extract = Ok f /\
    f_patterns f = empty_patterns.
Proof.
  split; [unfold ENTITY_TYPES; not_in_list|].
  split; [unfold RELATION_TYPES; not_in_list|].
  eexists _, _, _. split; [reflexivity|].
  split; [apply list_elem_of_here|]. split; [apply list_elem_of_here|].
  split; vm_compute; reflexivity.
Qed.

Lemma dispatch_unknown_kind self m p r s t :
  r_type r ∉ RELATION_TYPES ->
  m !! r_source r = Some s -> m !! r_target r = Some t ->
  dispatch self m p r = Ok p.
Proof.
  intros Hk Hs Ht. unfold dispatch, lookup_entity. rewrite Hs, Ht. simpl.
  unfold RELATION_TYPES in Hk.
  destruct (String.eqb_spec (r_type r) "located_at") as [E|_];
    [exfalso; apply Hk; rewrite E; in_list|].
  destruct (String.eqb_spec (r_type r) "modify") as [E|_];
    [exfalso; apply Hk; rewrite E; in_list|].
  destruct (String.eqb_spec (r_type r) "suggestive_of") as [E|_];
    [exfalso; apply Hk; rewrite E; in_list|].
  reflexivity.
Qed.

(** C6, amended: neither enumeration is ever consulted. The parser copies
    every label and every relation kind unchanged into the entity and the
    relation it produces, and the pattern analyzer skips a relation whose
    kind is none of suggestive_of, located_at and modify and whose endpoints
    are known entities: its output is the same as without that relation. *)
Theorem labels_and_kinds_unchecked (self : RadGraphAnalyzer) (x : extract)
    (es : list entity) (rs : list relation) :
  parse_radgraph_format self x = Ok (es, rs) ->
  (exists items,
     x_entities x = Some items /\
     Forall2 (fun it e => i_label it.2 = Some (e_type e)) items es /\
     map r_type rs =
       concat (map (fun it => map fst (default [] (i_relations it.2))) items)) /\
  (forall rs1 r rs2,
     r_type r ∉ RELATION_TYPES ->
     r_source r ∈ map e_id es -> r_target r ∈ map e_id es ->
     find_pneumonia_patterns self es (rs1 ++ r :: rs2) =
     find_pneumonia_patterns self es (rs1 ++ rs2)).
Proof.
  intros Hp. split.
  - apply parse_radgraph_format_Ok in Hp as (text & items & _ & Hi & HF & ->).
    exists items. split; [assumption|]. split.
    + eapply Forall2_impl; [exact HF|].
      intros it e He. now apply make_entity_Ok in He.
    + clear HF Hi. induction items as [|[entity_id info] items IH]; [reflexivity|].
      simpl. rewrite map_app, IH. f_equal.
      unfold make_relations. rewrite map_map.
      apply map_ext. now intros [ty tgt].
  - intros rs1 r rs2 Hk Hs Ht.
    apply entity_map_is_Some in Hs as [s Hs].
    apply entity_map_is_Some in Ht as [t Ht].
    unfold find_pneumonia_patterns. rewrite !patterns_loop_app.
    destruct (patterns_loop self (make_entity_map es) rs1 empty_patterns) as [p|];
      [|reflexivity].
    simpl. now rewrite (dispatch_unknown_kind self _ p r s t Hk Hs Ht).
Qed.

Lemma labels_and_kinds_unchecked_witness :
  map e_type
    [ {| e_id := "1"; e_text := "patchy"; e_type := "Finding::probable";
         e_start_ix := 0; e_end_ix := 0 |};
      {| e_id := "2"; e_text := "opacity";
         e_type := "Observation::definitely present";
         e_start_ix := 1; e_end_ix := 1 |} ] =
    ["Finding::probable"; "Observation::definitely present"] /\
  find_pneumonia_patterns init
    [ {| e_id := "1"; e_text := "patchy"; e_type := "Finding::probable";
         e_start_ix := 0; e_end_ix := 0 |};
      {| e_id := "2"; e_text := "opacity";
         e_type := "Observation::definitely present";
         e_start_ix := 1; e_end_ix := 1 |} ]
    [ {| r_source := "1"; r_target := "2"; r_type := "causes" |} ] =
  find_pneumonia_patterns init
    [ {| e_id := "1"; e_text := "patchy"; e_type := "Finding::probable";
         e_start_ix := 0; e_end_ix := 0 |};
      {| e_id := "2"; e_text := "opacity";
         e_type := "Observation::definitely present";
         e_start_ix := 1; e_end_ix := 1 |} ]
    [].
Proof.
  destruct (labels_and_kinds_unchecked init unknown_labels_extract
              [ {| e_id := "1"; e_text := "patchy"; e_type := "Finding::probable";
                   e_start_ix := 0; e_end_ix := 0 |};
                {| e_id := "2"; e_text := "opacity";
                   e_type := "Observation::definitely present";
                   e_start_ix := 1; e_end_ix := 1 |} ]
              [ {| r_source := "1"; r_target := "2"; r_type := "causes" |} ]
              eq_refl) as [_ Hskip].
  split; [reflexivity|].
  apply (Hskip [] {| r_source := "1"; r_target := "2"; r_type := "causes" |} []).
  - unfold RELATION_TYPES. not_in_list.
  - simpl. in_list.
  - simpl. in_list.
Defined.

(** ** Attachment direction *)

(** C7: after the relations before it are processed, a modify relation
    between two Observation entities appends the text of its source to the
    modifiers list kept under the text of its target, and a located_at
    relation whose source is an Observation appends the text of its target
    to the findings list kept under the text of its source; nothing else of
    the bundle changes. *)
Theorem attachment_direction (self : RadGraphAnalyzer) (es : list entity)
    (rs : list relation) (r : relation) (p : patterns) (s t : entity) :
  find_pneumonia_patterns self es rs = Ok p ->
  make_entity_map es !! r_source r = Some s ->
  make_entity_map es !! r_target r = Some t ->
  (r_type r = "modify" ->
   PyStr.contains "Observation" (e_type s) = true ->
   PyStr.contains "Observation" (e_type t) = true ->
   find_pneumonia_patterns self es (rs ++ [r]) =
     Ok {| findings := findings p;
           locations := locations p;
           modifiers :=
             <[e_text t := default [] (modifiers p !! e_text t) ++ [Str (e_text s)]]>
               (modifiers p) |}) /\
  (r_type r = "located_at" ->
   PyStr.contains "Observation" (e_type s) = true ->
   find_pneumonia_patterns self es (rs ++ [r]) =
     Ok {| findings :=
             <[e_text s := default [] (findings p !! e_text s) ++ [Str (e_text t)]]>
               (findings p);
           locations := locations p;
           modifiers := modifiers p |}).
Proof.
  intros Hp Hs Ht.
  rewrite find_pneumonia_patterns_snoc, Hp. simpl.
  unfold dispatch, lookup_entity. rewrite Hs, Ht. simpl.
  split.
  - intros -> Hos Hot. simpl. now rewrite Hos, Hot.
  - intros -> Hos. simpl. now rewrite Hos.
Qed.

Lemma find_sample_prefix :
  find_pneumonia_patterns init sample_entities [] = Ok empty_patterns.
Proof. reflexivity. Qed.

Lemma attachment_direction_witness :
  find_pneumonia_patterns init sample_entities
    [ {| r_source := "1"; r_target := "3"; r_type := "modify" |} ] =
    Ok {| findings := ∅; locations := ∅;
          modifiers := {[ "process" := [Str "acute"] ]} |} /\
  find_pneumonia_patterns init sample_entities
    [ {| r_source := "3"; r_target := "2"; r_type := "located_at" |} ] =
    Ok {| findings := {[ "process" := [Str "cardiopulmonary"] ]};
          locations := ∅; modifiers := ∅ |}.
Proof.
  split.
  - apply (proj1 (attachment_direction init sample_entities []
                    {| r_source := "1"; r_target := "3"; r_type := "modify" |}
                    empty_patterns
                    {| e_id := "1"; e_text := "acute";
                       e_type := "Observation::definitely absent";
                       e_start_ix := 3; e_end_ix := 3 |}
                    {| e_id := "3"; e_text := "process";
                       e_type := "Observation::definitely absent";
                       e_start_ix := 5; e_end_ix := 5 |}
                    eq_refl eq_refl eq_refl)); reflexivity.
  - apply (proj2 (attachment_direction init sample_entities []
                    {| r_source := "3"; r_target := "2"; r_type := "located_at" |}
                    empty_patterns
                    {| e_id := "3"; e_text := "process";
                       e_type := "Observation::definitely absent";
                       e_start_ix := 5; e_end_ix := 5 |}
                    {| e_id := "2"; e_text := "cardiopulmonary";
                       e_type := "Anatomy::definitely present";
                       e_start_ix := 4; e_end_ix := 4 |}
                    eq_refl eq_refl eq_refl)); reflexivity.
Defined.

(** ** The locations mapping *)

(** C10: the 'locations' mapping of the bundle returned by
    [find_pneumonia_patterns], and so of the bundle inside the record
    returned by [extract_features], is empty for every input. *)
Theorem locations_always_empty (self : RadGraphAnalyzer) :
  (forall es rs p,
     find_pneumonia_patterns self es rs = Ok p -> locations p = ∅) /\
  (forall x f,
     extract_features self x = Ok f -> locations (f_patterns f) = ∅).
Proof.
  assert (forall es rs p,
             find_pneumonia_patterns self es rs = Ok p -> locations p = ∅) as Hfind.
  { intros es rs p H. unfold find_pneumonia_patterns in H.
    now apply patterns_loop_locations in H. }
  split; [exact Hfind|].
  intros x f H. unfold extract_features in H.
  destruct (parse_radgraph_format self x) as [[es rs]|]; [|discriminate].
  simpl in H.
  destruct (find_pneumonia_patterns self es rs) as [p|] eqn:Hp; [|discriminate].
  simpl in H.
  destruct (analyze_certainty self es); [|discriminate]. simpl in H.
  destruct (observations_loop _ es ∅); [|discriminate]. simpl in H.
  injection H as <-. simpl. eapply Hfind; eassumption.
Qed.

Lemma locations_always_empty_witness :
  locations
    {| findings := {[ "process" := [Str "cardiopulmonary"] ]};
       locations := ∅;
       modifiers := <[ "process" := [Str "acute"] ]>
                      {[ "hiatal hernia" := [Str "moderate"] ]} |} = ∅ /\
  find_pneumonia_patterns init sample_entities sample_relations =
    Ok {| findings := {[ "process" := [Str "cardiopulmonary"] ]};
          locations := ∅;
          modifiers := <[ "process" := [Str "acute"] ]>
                         {[ "hiatal hernia" := [Str "moderate"] ]} |}.
Proof.
  assert (find_pneumonia_patterns init sample_entities sample_relations =
          Ok {| findings := {[ "process" := [Str "cardiopulmonary"] ]};
                locations := ∅;
                modifiers := <[ "process" := [Str "acute"] ]>
                               {[ "hiatal hernia" := [Str "moderate"] ]} |}) as H
    by (vm_compute; reflexivity).
  split; [|exact H].
  exact (proj1 (locations_always_empty init) sample_entities sample_relations _ H).
Defined.

(** ** Substring matching *)

Section Substring.

Import PyStr.

Lemma startswith_spec (p : string) :
  forall s, startswith p s = true <-> exists post, s = p +:+ post.
Proof.
  induction p as [|a p IH]; intros s.
  - split; [intros _; now exists s | reflexivity].
  - destruct s as [|b s]; simpl.
    + split; [discriminate | intros [post H]; discriminate].
    + rewrite andb_true_iff, Ascii.eqb_eq, IH. split.
      * intros [-> [post ->]]. now exists post.
      * intros [post H]. rewrite append_cons in H. injection H as -> ->.
        split; [reflexivity | now exists post].
Qed.

Lemma contains_unfold (sub s : string) :
  contains sub s =
  startswith sub s ||
  match s with EmptyString => false | String _ s' => contains sub s' end.
Proof. destruct s; reflexivity. Qed.

(** [sub in s] holds exactly when [s] is some text, then [sub], then some
    text. *)
Lemma contains_spec (sub s : string) :
  contains sub s = true <-> exists pre post, s = pre +:+ sub +:+ post.
Proof.
  split.
  - induction s as [|c s IH]; rewrite contains_unfold, orb_true_iff.
    + intros [H|H]; [|discriminate].
      apply startswith_spec in H as [post H]. now exists "", post.
    + intros [H|H].
      * apply startswith_spec in H as [post H]. now exists "", post.
      * destruct (IH H) as (pre & post & ->). now exists (String c pre), post.
  - intros (pre & post & ->). induction pre as [|c pre IH].
    + rewrite append_nil_l, contains_unfold, orb_true_iff. left.
      apply startswith_spec. now exists post.
    + rewrite append_cons, contains_unfold, orb_true_iff. now right.
Qed.

End Substring.

Lemma any_term_spec (self : RadGraphAnalyzer) (text : string) :
  any_term self text = true <-> mentions_term self text.
Proof.
  unfold any_term, mentions_term. rewrite existsb_exists. split.
  - intros (term & Hin & Hc). apply contains_spec in Hc as (pre & post & Hc).
    exists term, pre, post. split; [now apply list_elem_of_In | assumption].
  - intros (term & pre & post & Hin & Hc). exists term.
    split; [now apply list_elem_of_In|]. apply contains_spec. now exists pre, post.
Qed.

(** C8: after the relations before it are processed, a suggestive_of
    relation records the pair (source text, target text) under the key
    suggestive_patterns of the findings when the lowercased source text
    contains a term of the pneumonia vocabulary as a substring, and leaves
    the bundle unchanged when it does not; the match is by substring of the
    lowercased text, so that 'Consolidation noted', which is not equal to
    'consolidation', matches it. *)
Theorem suggestive_of_substring_match (self : RadGraphAnalyzer)
    (es : list entity) (rs : list relation) (r : relation) (p : patterns)
    (s t : entity) :
  find_pneumonia_patterns self es rs = Ok p ->
  r_type r = "suggestive_of" ->
  make_entity_map es !! r_source r = Some s ->
  make_entity_map es !! r_target r = Some t ->
  (mentions_term self (e_text s) ->
   find_pneumonia_patterns self es (rs ++ [r]) =
     Ok {| findings :=
             <["suggestive_patterns" :=
                 default [] (findings p !! "suggestive_patterns")
                 ++ [Tup (e_text s) (e_text t)]]> (findings p);
           locations := locations p;
           modifiers := modifiers p |}) /\
  (~ mentions_term self (e_text s) ->
   find_pneumonia_patterns self es (rs ++ [r]) = Ok p) /\
  (mentions_term init "Consolidation noted" /\
   "Consolidation noted" <> "consolidation").
Proof.
  intros Hp Hk Hs Ht.
  rewrite find_pneumonia_patterns_snoc, Hp. simpl.
  unfold dispatch, lookup_entity. rewrite Hs, Ht, Hk. simpl.
  split; [|split].
  - intros Hm. apply any_term_spec in Hm. now rewrite Hm.
  - intros Hm. destruct (any_term self (e_text s)) eqn:Ha; [|reflexivity].
    apply any_term_spec in Ha. contradiction.
  - split; [|discriminate]. now apply any_term_spec.
Qed.

Lemma suggestive_of_substring_match_witness :
  find_pneumonia_patterns init consolidation_entities
    [ {| r_source := "1"; r_target := "2"; r_type := "suggestive_of" |} ] =
    Ok {| findings :=
            {[ "suggestive_patterns" := [Tup "Consolidation noted" "Pneumonia"] ]};
          locations := ∅; modifiers := ∅ |}.
Proof.
  apply (proj1 (suggestive_of_substring_match init consolidation_entities []
                  {| r_source := "1"; r_target := "2"; r_type := "suggestive_of" |}
                  empty_patterns
                  {| e_id := "1"; e_text := "Consolidation noted";
                     e_type := "Observation::definitely present";
                     e_start_ix := 0; e_end_ix := 1 |}
                  {| e_id := "2"; e_text := "Pneumonia";
                     e_type := "Observation::uncertain";
                     e_start_ix := 2; e_end_ix := 2 |}
                  eq_refl eq_refl eq_refl eq_refl)).
  exists "consolidation", "", " noted". split; [|reflexivity].
  apply list_elem_of_here.
Defined.

(** ** Determinism *)

Lemma any_term_Permutation (s1 s2 : RadGraphAnalyzer) (text : string) :
  Permutation (pneumonia_terms s1) (pneumonia_terms s2) ->
  any_term s1 text = any_term s2 text.
Proof.
  unfold any_term. intros HP.
  induction HP as [|a l l' _ IH|a b l|l l' l'' _ IH1 _ IH2]; simpl.
  - reflexivity.
  - now rewrite IH.
  - now rewrite !orb_assoc, (orb_comm (PyStr.contains b _)).
  - now rewrite IH1.
Qed.

Lemma dispatch_Permutation (s1 s2 : RadGraphAnalyzer) m p r :
  Permutation (pneumonia_terms s1) (pneumonia_terms s2) ->
  dispatch s1 m p r = dispatch s2 m p r.
Proof.
  intros HP. unfold dispatch.
  destruct (lookup_entity m (r_source r)) as [s|]; [|reflexivity].
  destruct (lookup_entity m (r_target r)) as [t|]; [|reflexivity].
  simpl. now rewrite (any_term_Permutation s1 s2 _ HP).
Qed.

Lemma patterns_loop_Permutation (s1 s2 : RadGraphAnalyzer) m rs :
  Permutation (pneumonia_terms s1) (pneumonia_terms s2) ->
  forall p, patterns_loop s1 m rs p = patterns_loop s2 m rs p.
Proof.
  intros HP. induction rs as [|r rs IH]; intros p; simpl; [reflexivity|].
  rewrite (dispatch_Permutation s1 s2 _ _ _ HP).
  destruct (dispatch s2 m p r); simpl; [apply IH | reflexivity].
Qed.

(** C9: two runs, which can differ only in the order in which the set of
    pneumonia terms is iterated, give the same parsed lists, the same
    pattern bundle and the same feature record; and the parsed lists follow
    the document order of the input mapping: the entity ids are the keys of
    the mapping in order, and the relations are those of each item in
    order. *)
Theorem runs_agree (s1 s2 : RadGraphAnalyzer) (x : extract) :
  Permutation (pneumonia_terms s1) (pneumonia_terms s2) ->
  parse_radgraph_format s1 x = parse_radgraph_format s2 x /\
  (forall es rs,
     find_pneumonia_patterns s1 es rs = find_pneumonia_patterns s2 es rs) /\
  extract_features s1 x = extract_features s2 x /\
  (forall es rs,
     parse_radgraph_format s1 x = Ok (es, rs) ->
     exists items,
       x_entities x = Some items /\
       map e_id es = map fst items /\
       rs = concat (map (fun it => make_relations it.1 it.2) items)).
Proof.
  intros HP.
  assert (forall es rs,
             find_pneumonia_patterns s1 es rs = find_pneumonia_patterns s2 es rs)
    as Hfind.
  { intros es rs. unfold find_pneumonia_patterns.
    now apply patterns_loop_Permutation. }
  split; [reflexivity|]. split; [exact Hfind|]. split.
  - unfold extract_features.
    change (parse_radgraph_format s2 x) with (parse_radgraph_format s1 x).
    destruct (parse_radgraph_format s1 x) as [[es rs]|]; [|reflexivity].
    simpl. now rewrite Hfind.
  - intros es rs Hp.
    apply parse_radgraph_format_Ok in Hp as (text & items & _ & Hi & HF & ->).
    exists items. split; [assumption|]. split; [|reflexivity].
    clear Hi. induction HF as [|it e items es He _ IH]; [reflexivity|].
    simpl. rewrite IH. f_equal. now apply make_entity_Ok in He.
Qed.

Lemma runs_agree_witness :
  Permutation (pneumonia_terms init) (pneumonia_terms reversed_run) /\
  parse_radgraph_format init sample_extract =
    parse_radgraph_format reversed_run sample_extract /\
  find_pneumonia_patterns init consolidation_entities
    [ {| r_source := "1"; r_target := "2"; r_type := "suggestive_of" |} ] =
  find_pneumonia_patterns reversed_run consolidation_entities
    [ {| r_source := "1"; r_target := "2"; r_type := "suggestive_of" |} ] /\
  extract_features init sample_extract =
    extract_features reversed_run sample_extract.
Proof.
  pose proof (Permutation_rev (pneumonia_terms init)) as HP.
  destruct (runs_agree init reversed_run sample_extract HP)
    as (Hparse & Hfind & Hfeatures & _).
  split; [exact HP|]. split; [exact Hparse|]. split; [apply Hfind | exact Hfeatures].
Defined.

(** ** The certainty histogram *)

Lemma histogram_total_insert (k : string) (n : nat) (h : gmap string nat) :
  h !! k = None ->
  histogram_total (<[k := n]> h) = (n + histogram_total h)%nat.
Proof.
  intros Hk. unfold histogram_total.
  apply (map_fold_insert_L (fun (_ : string) (n acc : nat) => (n + acc)%nat));
    [intros; lia | assumption].
Qed.

(** One more count, whatever the key, adds one to the total. *)
Lemma histogram_total_incr (k : string) (h : gmap string nat) :
  histogram_total (incr k h) = S (histogram_total h).
Proof.
  unfold incr. destruct (h !! k) as [n|] eqn:Hk; simpl.
  - rewrite <- (insert_delete_id h k n Hk) at 2.
    rewrite <- insert_delete_eq.
    rewrite !histogram_total_insert by apply lookup_delete_eq. lia.
  - now rewrite histogram_total_insert.
Qed.

Section SplitSep.

Import PyStr.

Lemma split_at_not_nil (sep : string) (s : string) :
  forall skip cur, split_at sep skip cur s <> [].
Proof.
  induction s as [|c s IH]; intros skip cur; simpl; [discriminate|].
  destruct skip; [|apply IH].
  destruct (startswith sep (String c s)); [discriminate | apply IH].
Qed.

(** A text that contains a non-empty separator splits into two pieces at
    least. *)
Lemma split_sep_two (sep s : string) :
  sep <> EmptyString -> contains sep s = true ->
  exists a b l, split_sep sep s = a :: b :: l.
Proof.
  intros Hsep. unfold split_sep. generalize EmptyString as cur.
  induction s as [|c s IH]; intros cur; rewrite contains_unfold.
  - destruct sep; [contradiction | discriminate].
  - simpl split_at. destruct (startswith sep (String c s)) eqn:Hst.
    + intros _.
      destruct (split_at sep (Nat.pred (String.length sep)) "" s) as [|b l] eqn:Hl.
      * now apply split_at_not_nil in Hl.
      * now exists cur, b, l.
    + simpl. apply IH.
Qed.

End SplitSep.

(** What the histogram adds up to: one count for each entity whose type
    contains the separator, whatever its category. *)
Lemma certainty_loop_total (entities : list entity) :
  forall counts,
    exists h, certainty_loop entities counts = Ok h /\
              histogram_total h =
              (count_separator entities + histogram_total counts)%nat.
Proof.
  unfold count_separator, count_type.
  induction entities as [|e es IH]; intros counts; simpl.
  - now exists counts.
  - destruct (PyStr.contains "::" (e_type e)) eqn:Hc.
    + destruct (split_sep_two "::" (e_type e)) as (a & b & l & ->);
        [discriminate | assumption|]. simpl.
      destruct (IH (incr b counts)) as (h & -> & Hh).
      exists h. split; [reflexivity|].
      rewrite filter_cons_True by assumption.
      rewrite Hh, histogram_total_incr. simpl. lia.
    + destruct (IH counts) as (h & -> & Hh).
      exists h. split; [reflexivity|].
      rewrite filter_cons_False by congruence. exact Hh.
Qed.

Lemma analyze_certainty_total (self : RadGraphAnalyzer) (entities : list entity) :
  exists h, analyze_certainty self entities = Ok h /\
            histogram_total h = count_separator entities.
Proof.
  destruct (certainty_loop_total entities ∅) as (h & Hh & Ht).
  exists h. split; [exact Hh|]. rewrite Ht.
  unfold histogram_total. rewrite map_fold_empty. lia.
Qed.

(** C2, as stated, fails: on the entities of the sample document the values
    of the histogram add up to five, one more than the four Observation
    entities, because the Anatomy entity is counted too. *)
Lemma certainty_histogram_counts_anatomy :
  exists h,
    analyze_certainty init sample_entities = Ok h /\
    h = <[ "definitely absent" := 2%nat ]> {[ "definitely present" := 3%nat ]} /\
    histogram_total h = 5%nat /\
    count_type "Observation" sample_entities = 4%nat /\
    histogram_total h <> count_type "Observation" sample_entities.
Proof.
  destruct (analyze_certainty_total init sample_entities) as (h & Hh & Ht).
  assert (histogram_total h = 5%nat) as H5 by (rewrite Ht; reflexivity).
  exists h. split; [exact Hh|].
  split; [vm_compute in Hh; injection Hh as <-; vm_compute; reflexivity|].
  split; [exact H5|]. split; [reflexivity|].
  rewrite H5. intros H. vm_compute in H. discriminate H.
Qed.

Lemma certainty_loop_no_separator (entities : list entity) (e : entity) :
  PyStr.contains "::" (e_type e) = false ->
  forall counts,
    certainty_loop (entities ++ [e]) counts = certainty_loop entities counts.
Proof.
  intros He. induction entities as [|a es IH]; intros counts; simpl.
  - now rewrite He.
  - destruct (PyStr.contains "::" (e_type a)); [|apply IH].
    destruct (PyStr.split_sep "::" (e_type a) !! 1%nat); [apply IH | reflexivity].
Qed.

(** C2, amended: for every list of entities [analyze_certainty] returns a
    histogram whose values add up to exactly the number of entities whose
    type label contains the separator '::', whatever their category
    (Observation or Anatomy); an entity whose type label has no separator
    contributes nothing to the histogram. *)
Theorem certainty_histogram_total (self : RadGraphAnalyzer)
    (entities : list entity) :
  (exists h,
     analyze_certainty self entities = Ok h /\
     histogram_total h = count_separator entities) /\
  (forall e,
     PyStr.contains "::" (e_type e) = false ->
     analyze_certainty self (entities ++ [e]) =
     analyze_certainty self entities).
Proof.
  split.
  - destruct (certainty_loop_total entities ∅) as (h & Hh & Ht).
    exists h. split; [exact Hh|]. rewrite Ht.
    unfold histogram_total. rewrite map_fold_empty. lia.
  - intros e He. unfold analyze_certainty.
    now apply certainty_loop_no_separator.
Qed.

Lemma certainty_histogram_total_witness :
  (exists h,
     analyze_certainty init sample_entities = Ok h /\
     histogram_total h = count_separator sample_entities) /\
  analyze_certainty init
    (sample_entities ++
     [ {| e_id := "6"; e_text := "hernia"; e_type := "Observation";
          e_start_ix := 8; e_end_ix := 8 |} ]) =
  analyze_certainty init sample_entities.
Proof.
  destruct (certainty_histogram_total init sample_entities) as [Htotal Hskip].
  split; [exact Htotal|].
  apply (Hskip {| e_id := "6"; e_text := "hernia"; e_type := "Observation";
                  e_start_ix := 8; e_end_ix := 8 |}).
  reflexivity.
Defined.

(** * Further properties of the analyzer *)

(** ** Reconstructed texts *)

(** The tokens of the text of a parsed entity are the sliced tokens of the
    document, whatever the span: the reconstruction loses nothing and adds
    nothing. *)
Theorem entity_tokens_are_slice (self : RadGraphAnalyzer) (x : extract)
    (text : string) (es : list entity) (rs : list relation) (e : entity) :
  parse_radgraph_format self x = Ok (es, rs) ->
  x_text x = Some text ->
  e ∈ es ->
  PyStr.split (e_text e) =
    py_slice (PyStr.split text) (e_start_ix e) (e_end_ix e + 1) /\
  Forall (fun w => w ∈ PyStr.split text) (PyStr.split (e_text e)).
Proof.
  intros Hp Ht He.
  destruct (parse_entity_origin _ _ _ _ _ Hp He) as (text' & it & Ht' & Hm).
  assert (text' = text) as -> by congruence.
  apply make_entity_Ok in Hm as (_ & _ & _ & _ & ->).
  rewrite split_join by apply py_slice_Forall, split_words.
  split; [reflexivity|].
  apply py_slice_Forall, Forall_forall. auto.
Qed.

Lemma entity_tokens_are_slice_witness :
  PyStr.split "hiatal hernia" =
    py_slice
      (PyStr.split "no evidence of acute cardiopulmonary process moderate hiatal hernia")
      7 (8 + 1) /\
  Forall (fun w => w ∈ PyStr.split "no evidence of acute cardiopulmonary process moderate hiatal hernia")
         (PyStr.split "hiatal hernia").
Proof.
  apply (entity_tokens_are_slice init sample_extract
           "no evidence of acute cardiopulmonary process moderate hiatal hernia"
           sample_entities sample_relations
           {| e_id := "5"; e_text := "hiatal hernia";
              e_type := "Observation::definitely present";
              e_start_ix := 7; e_end_ix := 8 |}).
  - reflexivity.
  - reflexivity.
  - unfold sample_entities. in_list.
Defined.

Lemma py_slice_empty {A} (l : list A) (lo hi : Z) :
  hi = 0 \/ (0 <= hi /\ hi <= lo) \/ Z.of_nat (length l) <= lo ->
  py_slice l lo hi = [].
Proof.
  intros H. unfold py_slice, adjust_index.
  replace (Z.to_nat _) with O; [reflexivity|].
  destruct (Z.ltb_spec lo 0), (Z.ltb_spec hi 0); lia.
Qed.

(** A parsed entity has the empty text when its end_ix is -1 (the slice
    then stops at position 0), when its span is reversed, and when it
    starts at or after the last token. *)
Theorem degenerate_span_empty_text (self : RadGraphAnalyzer) (x : extract)
    (text : string) (es : list entity) (rs : list relation) (e : entity) :
  parse_radgraph_format self x = Ok (es, rs) ->
  x_text x = Some text ->
  e ∈ es ->
  e_end_ix e = -1 \/
  (0 <= e_end_ix e /\ e_end_ix e < e_start_ix e) \/
  Z.of_nat (length (PyStr.split text)) <= e_start_ix e ->
  e_text e = "".
Proof.
  intros Hp Ht He Hspan.
  destruct (parse_entity_origin _ _ _ _ _ Hp He) as (text' & it & Ht' & Hm).
  assert (text' = text) as -> by congruence.
  apply make_entity_Ok in Hm as (_ & _ & _ & _ & ->).
  rewrite py_slice_empty; [reflexivity | lia].
Qed.

Lemma degenerate_span_empty_text_witness :
  e_text {| e_id := "1"; e_text := "";
            e_type := "Observation::definitely present";
            e_start_ix := -1; e_end_ix := -1 |} = "".
Proof.
  apply (degenerate_span_empty_text init last_token_extract "patchy opacity"
           [ {| e_id := "1"; e_text := "";
                e_type := "Observation::definitely present";
                e_start_ix := -1; e_end_ix := -1 |} ] []).
  - reflexivity.
  - reflexivity.
  - in_list.
  - left. reflexivity.
Defined.

Lemma py_slice_negative {A} (l : list A) (lo hi : Z) :
  - Z.of_nat (length l) <= lo -> lo < 0 ->
  - Z.of_nat (length l) <= hi -> hi < 0 ->
  py_slice l lo hi =
    py_slice l (Z.of_nat (length l) + lo) (Z.of_nat (length l) + hi).
Proof.
  intros H1 H2 H3 H4. unfold py_slice, adjust_index.
  destruct (Z.ltb_spec lo 0); [|lia]. destruct (Z.ltb_spec hi 0); [|lia].
  destruct (Z.ltb_spec (Z.of_nat (length l) + lo) 0); [lia|].
  destruct (Z.ltb_spec (Z.of_nat (length l) + hi) 0); [lia|].
  f_equal; [f_equal; lia | f_equal; f_equal; lia].
Qed.

(** A span given by negative indices is counted from the end of the
    document: with n tokens, the span (start_ix, end_ix) with
    -n <= start_ix <= end_ix < -1 gives the text of the span
    (n + start_ix, n + end_ix), with end_ix - start_ix + 1 tokens. *)
Theorem negative_span_counts_from_end (self : RadGraphAnalyzer) (x : extract)
    (text : string) (es : list entity) (rs : list relation) (e : entity) :
  parse_radgraph_format self x = Ok (es, rs) ->
  x_text x = Some text ->
  e ∈ es ->
  - Z.of_nat (length (PyStr.split text)) <= e_start_ix e ->
  e_start_ix e <= e_end_ix e ->
  e_end_ix e < -1 ->
  e_text e =
    PyStr.join " "
      (py_slice (PyStr.split text)
         (Z.of_nat (length (PyStr.split text)) + e_start_ix e)
         (Z.of_nat (length (PyStr.split text)) + e_end_ix e + 1)) /\
  Z.of_nat (length (PyStr.split (e_text e))) = e_end_ix e - e_start_ix e + 1.
Proof.
  intros Hp Ht He H1 H2 H3.
  destruct (parse_entity_origin _ _ _ _ _ Hp He) as (text' & it & Ht' & Hm).
  assert (text' = text) as -> by congruence.
  apply make_entity_Ok in Hm as (_ & _ & _ & _ & ->).
  rewrite py_slice_negative by lia.
  replace (Z.of_nat (length (PyStr.split text)) + (e_end_ix e + 1))
    with (Z.of_nat (length (PyStr.split text)) + e_end_ix e + 1) by lia.
  split; [reflexivity|].
  rewrite split_join by apply py_slice_Forall, split_words.
  rewrite py_slice_length; lia.
Qed.

Lemma negative_span_counts_from_end_witness :
  "moderate hiatal" =
    PyStr.join " "
      (py_slice
         (PyStr.split "no evidence of acute cardiopulmonary process moderate hiatal hernia")
         (9 + -3) (9 + -2 + 1)) /\
  Z.of_nat (length (PyStr.split "moderate hiatal")) = -2 - -3 + 1.
Proof.
  apply (negative_span_counts_from_end init
           {| x_text := Some "no evidence of acute cardiopulmonary process moderate hiatal hernia";
              x_entities := Some
                [ ("1", {| i_tokens := None;
                           i_label := Some "Observation::uncertain";
                           i_start_ix := Some (-3); i_end_ix := Some (-2);
                           i_relations := None |}) ] |}
           "no evidence of acute cardiopulmonary process moderate hiatal hernia"
           [ {| e_id := "1"; e_text := "moderate hiatal";
                e_type := "Observation::uncertain";
                e_start_ix := -3; e_end_ix := -2 |} ] []
           {| e_id := "1"; e_text := "moderate hiatal";
              e_type := "Observation::uncertain";
              e_start_ix := -3; e_end_ix := -2 |}).
  - reflexivity.
  - reflexivity.
  - in_list.
  - vm_compute. discriminate.
  - simpl. lia.
  - simpl. lia.
Defined.

(** ** When the pattern analyzer raises *)

Lemma patterns_loop_Ok_known self m rs :
  forall p p',
    patterns_loop self m rs p = Ok p' ->
    Forall (fun r => is_Some (m !! r_source r) /\ is_Some (m !! r_target r)) rs.
Proof.
  induction rs as [|r rs IH]; intros p p' H; [constructor|].
  simpl in H. destruct (dispatch self m p r) as [p1|] eqn:Hd; [|discriminate].
  simpl in H. constructor; [|eapply IH; eassumption].
  apply dispatch_Ok in Hd as (s & t & -> & ->). split; eauto.
Qed.

Lemma patterns_loop_known_Ok self m rs :
  forall p,
    Forall (fun r => is_Some (m !! r_source r) /\ is_Some (m !! r_target r)) rs ->
    exists p', patterns_loop self m rs p = Ok p'.
Proof.
  induction rs as [|r rs IH]; intros p HF; simpl; [now exists p|].
  apply Forall_cons in HF as [[[s Hs] [t Ht]] HF].
  destruct (dispatch_known self m p r s t Hs Ht) as (p1 & -> & _). simpl.
  now apply IH.
Qed.

Lemma endpoints_known_lookup (es : list entity) (r : relation) :
  endpoints_known es r <->
  is_Some (make_entity_map es !! r_source r) /\
  is_Some (make_entity_map es !! r_target r).
Proof. unfold endpoints_known. now rewrite !entity_map_is_Some. Qed.

Lemma find_Ok_known self es rs p :
  find_pneumonia_patterns self es rs = Ok p -> Forall (endpoints_known es) rs.
Proof.
  unfold find_pneumonia_patterns. intros Hp. apply patterns_loop_Ok_known in Hp.
  eapply Forall_impl; [exact Hp|]. intros r Hr. now apply endpoints_known_lookup.
Qed.

Lemma find_known_Ok self es rs :
  Forall (endpoints_known es) rs ->
  exists p, find_pneumonia_patterns self es rs = Ok p.
Proof.
  unfold find_pneumonia_patterns. intros HF. apply patterns_loop_known_Ok.
  eapply Forall_impl; [exact HF|]. intros r Hr. now apply endpoints_known_lookup.
Qed.

(** The pattern analyzer returns a bundle exactly when both endpoints of
    every relation are ids of the given entities, whatever the kinds of the
    relations: the endpoints are looked up before the kind is read. *)
Theorem find_succeeds_iff_endpoints_known (self : RadGraphAnalyzer)
    (es : list entity) (rs : list relation) :
  (exists p, find_pneumonia_patterns self es rs = Ok p) <->
  Forall (endpoints_known es) rs.
Proof.
  split.
  - intros [p Hp]. eapply find_Ok_known; eassumption.
  - apply find_known_Ok.
Qed.

(** The exception of the pattern analyzer is the KeyError of the first
    relation with an unknown endpoint: on its source when that is unknown,
    on its target otherwise. The relations after it are not looked at. *)
Theorem find_raises_first_unknown (self : RadGraphAnalyzer)
    (es : list entity) (rs1 : list relation) (r : relation)
    (rs2 : list relation) :
  Forall (endpoints_known es) rs1 ->
  ~ endpoints_known es r ->
  find_pneumonia_patterns self es (rs1 ++ r :: rs2) =
    Raise (KeyError (if decide (r_source r ∈ map e_id es)
                     then r_target r else r_source r)).
Proof.
  intros HF Hr. unfold find_pneumonia_patterns. rewrite patterns_loop_app.
  destruct (patterns_loop_known_Ok self (make_entity_map es) rs1 empty_patterns)
    as [p ->].
  { eapply Forall_impl; [exact HF|]. intros r' Hr'. now apply endpoints_known_lookup. }
  simpl. unfold dispatch, lookup_entity.
  destruct (decide (r_source r ∈ map e_id es)) as [Hs|Hs].
  - pose proof Hs as Hs'. apply entity_map_is_Some in Hs' as [s ->]. simpl.
    destruct (make_entity_map es !! r_target r) as [t|] eqn:Ht; [|reflexivity].
    exfalso. apply Hr. split; [assumption|].
    apply entity_map_is_Some. eauto.
  - apply entity_map_None in Hs. now rewrite Hs.
Qed.

Lemma find_raises_first_unknown_witness :
  find_pneumonia_patterns init sample_entities
    (sample_relations ++
     {| r_source := "7"; r_target := "8"; r_type := "causes" |} :: sample_relations) =
    Raise (KeyError "7").
Proof.
  apply (find_raises_first_unknown init sample_entities sample_relations
           {| r_source := "7"; r_target := "8"; r_type := "causes" |}
           sample_relations).
  - unfold sample_relations, endpoints_known.
    repeat constructor; simpl; in_list.
  - unfold endpoints_known. simpl. intros [H _]. revert H. not_in_list.
Defined.

Lemma find_succeeds_iff_endpoints_known_witness :
  exists p, find_pneumonia_patterns init sample_entities sample_relations = Ok p.
Proof.
  apply (proj2 (find_succeeds_iff_endpoints_known init sample_entities
                  sample_relations)).
  unfold sample_relations, endpoints_known. repeat constructor; simpl; in_list.
Defined.

(** ** Entities that share an id *)

Lemma entity_map_fold_other (es : list entity) :
  forall (m : gmap string entity) (k : string),
    k ∉ map e_id es ->
    foldl (fun m e => <[e_id e := e]> m) m es !! k = m !! k.
Proof.
  induction es as [|e es IH]; intros m k Hk; simpl; [reflexivity|].
  simpl in Hk. apply not_elem_of_cons in Hk as [Hne Hk].
  rewrite IH by assumption. now apply lookup_insert_ne.
Qed.

(** Among entities with the same id the last one is the one that the
    entity map holds, so it is the one whose type and text the pattern
    analyzer reads. *)
Theorem entity_map_last_wins (es1 : list entity) (e : entity)
    (es2 : list entity) :
  e_id e ∉ map e_id es2 ->
  make_entity_map (es1 ++ e :: es2) !! e_id e = Some e.
Proof.
  intros Hk. unfold make_entity_map. rewrite foldl_app. simpl.
  rewrite entity_map_fold_other by assumption. apply lookup_insert_eq.
Qed.

Lemma entity_map_last_wins_witness :
  make_entity_map
    ([ {| e_id := "1"; e_text := "patchy"; e_type := "Anatomy::definitely present";
          e_start_ix := 0; e_end_ix := 0 |} ] ++
     {| e_id := "1"; e_text := "opacity"; e_type := "Observation::uncertain";
        e_start_ix := 1; e_end_ix := 1 |} ::
     [ {| e_id := "2"; e_text := "lung"; e_type := "Anatomy::definitely present";
          e_start_ix := 2; e_end_ix := 2 |} ]) !! "1" =
    Some {| e_id := "1"; e_text := "opacity"; e_type := "Observation::uncertain";
            e_start_ix := 1; e_end_ix := 1 |}.
Proof.
  apply (entity_map_last_wins
           [ {| e_id := "1"; e_text := "patchy"; e_type := "Anatomy::definitely present";
                e_start_ix := 0; e_end_ix := 0 |} ]
           {| e_id := "1"; e_text := "opacity"; e_type := "Observation::uncertain";
              e_start_ix := 1; e_end_ix := 1 |}
           [ {| e_id := "2"; e_text := "lung"; e_type := "Anatomy::definitely present";
                e_start_ix := 2; e_end_ix := 2 |} ]).
  simpl. not_in_list.
Defined.

Lemma entity_map_fold_elem (es l : list entity) :
  forall (m : gmap string entity) (k : string) (e : entity),
    (forall k e, m !! k = Some e -> e ∈ es /\ e_id e = k) ->
    (forall e, e ∈ l -> e ∈ es) ->
    foldl (fun m e => <[e_id e := e]> m) m l !! k = Some e ->
    e ∈ es /\ e_id e = k.
Proof.
  induction l as [|a l IH]; intros m k e Hm Hl H; simpl in H; [now apply Hm|].
  apply (IH (<[e_id a := a]> m)); [| |exact H].
  - intros k' e' H'. apply lookup_insert_Some in H' as [[<- <-]|[_ H']].
    + split; [apply Hl, list_elem_of_here | reflexivity].
    + now apply Hm.
  - intros e' He'. apply Hl. now apply list_elem_of_further.
Qed.

(** What the entity map holds under a key is one of the entities, with that
    id. *)
Lemma entity_map_elem (es : list entity) (k : string) (e : entity) :
  make_entity_map es !! k = Some e -> e ∈ es /\ e_id e = k.
Proof.
  apply entity_map_fold_elem; [|auto].
  intros k' e' H. now rewrite lookup_empty in H.
Qed.

(** ** Relations that leave no trace *)

(** A relation between known entities is skipped, and the output is the
    same as without it, when it is a located_at whose source is no
    Observation, a modify with an endpoint that is no Observation (so every
    modify between two Anatomy entities), or a suggestive_of whose source
    text has no term of the vocabulary. *)
Theorem guarded_relations_skipped (self : RadGraphAnalyzer)
    (es : list entity) (rs1 : list relation) (r : relation)
    (rs2 : list relation) (s t : entity) :
  make_entity_map es !! r_source r = Some s ->
  make_entity_map es !! r_target r = Some t ->
  (r_type r = "located_at" /\ PyStr.contains "Observation" (e_type s) = false) \/
  (r_type r = "modify" /\
   (PyStr.contains "Observation" (e_type s) = false \/
    PyStr.contains "Observation" (e_type t) = false)) \/
  (r_type r = "suggestive_of" /\ any_term self (e_text s) = false) ->
  find_pneumonia_patterns self es (rs1 ++ r :: rs2) =
  find_pneumonia_patterns self es (rs1 ++ rs2).
Proof.
  intros Hs Ht Hguard.
  unfold find_pneumonia_patterns. rewrite !patterns_loop_app.
  destruct (patterns_loop self (make_entity_map es) rs1 empty_patterns) as [p|];
    [|reflexivity].
  simpl.
  assert (dispatch self (make_entity_map es) p r = Ok p) as ->; [|reflexivity].
  unfold dispatch, lookup_entity. rewrite Hs, Ht. simpl.
  destruct Hguard as [[-> Hg]|[[-> Hg]|[-> Hg]]]; simpl.
  - now rewrite Hg.
  - destruct Hg as [-> | ->]; [reflexivity | now rewrite andb_false_r].
  - now rewrite Hg.
Qed.

Lemma guarded_relations_skipped_witness :
  find_pneumonia_patterns init sample_entities
    (sample_relations ++
     [ {| r_source := "2"; r_target := "2"; r_type := "modify" |} ]) =
  find_pneumonia_patterns init sample_entities (sample_relations ++ []).
Proof.
  apply (guarded_relations_skipped init sample_entities sample_relations
           {| r_source := "2"; r_target := "2"; r_type := "modify" |} []
           {| e_id := "2"; e_text := "cardiopulmonary";
              e_type := "Anatomy::definitely present";
              e_start_ix := 4; e_end_ix := 4 |}
           {| e_id := "2"; e_text := "cardiopulmonary";
              e_type := "Anatomy::definitely present";
              e_start_ix := 4; e_end_ix := 4 |}).
  - reflexivity.
  - reflexivity.
  - right. left. split; [reflexivity|]. left. reflexivity.
Defined.

(** ** The shape and the size of the bundle *)

Lemma append_to_lookup (k : string) (v : item) (d : gmap string (list item))
    (k' : string) (l : list item) :
  append_to k v d !! k' = Some l ->
  (k' = k /\ l = default [] (d !! k) ++ [v]) \/ (k' <> k /\ d !! k' = Some l).
Proof.
  unfold append_to. intros H.
  apply lookup_insert_Some in H as [[<- <-]|[Hne H]]; [left | right]; auto.
Qed.

(** Appending an item that fits its key keeps every list non-empty and
    fitting. *)
Lemma append_to_fits (Q : string -> Prop) (P : string -> item -> Prop)
    (k : string) (v : item) (d : gmap string (list item)) :
  (forall k' l, d !! k' = Some l ->
     l <> [] /\ Q k' /\ forall it, it ∈ l -> P k' it) ->
  Q k -> P k v ->
  forall k' l, append_to k v d !! k' = Some l ->
    l <> [] /\ Q k' /\ forall it, it ∈ l -> P k' it.
Proof.
  intros Hd HQ HP k' l H.
  apply append_to_lookup in H as [[-> ->]|[_ H]]; [|now apply Hd].
  split; [now destruct (default [] (d !! k))|]. split; [assumption|].
  intros it Hit. apply elem_of_app in Hit as [Hit|Hit].
  - destruct (d !! k) as [l0|] eqn:Hk; simpl in Hit.
    + now apply (Hd k l0 Hk).
    + now apply elem_of_nil in Hit.
  - apply list_elem_of_singleton in Hit as ->. assumption.
Qed.

Lemma dispatch_shape self m texts p r p' :
  (forall k e, m !! k = Some e -> e_text e ∈ texts) ->
  bundle_shape texts p ->
  dispatch self m p r = Ok p' ->
  bundle_shape texts p'.
Proof.
  intros Hm [Hf Hmod] H. unfold dispatch, lookup_entity in H.
  destruct (m !! r_source r) as [s|] eqn:Hs; [|discriminate].
  destruct (m !! r_target r) as [t|] eqn:Ht; [|discriminate].
  simpl in H. apply Hm in Hs, Ht.
  destruct (String.eqb (r_type r) "located_at").
  { destruct (PyStr.contains "Observation" (e_type s));
      injection H as <-; [|now split].
    split; [|exact Hmod]. simpl.
    apply (append_to_fits
             (fun k => k ∈ texts \/ k = "suggestive_patterns")
             (fun k it => match it with
                          | Str s => k ∈ texts /\ s ∈ texts
                          | Tup s t => k = "suggestive_patterns" /\ s ∈ texts /\ t ∈ texts
                          end)); auto. }
  destruct (String.eqb (r_type r) "modify").
  { destruct (PyStr.contains "Observation" (e_type s)
              && PyStr.contains "Observation" (e_type t));
      injection H as <-; [|now split].
    split; [exact Hf|]. simpl.
    apply (append_to_fits
             (fun k => k ∈ texts)
             (fun k it => exists s, it = Str s /\ s ∈ texts)); eauto. }
  destruct (String.eqb (r_type r) "suggestive_of"); [|injection H as <-; now split].
  destruct (any_term self (e_text s)); injection H as <-; [|now split].
  split; [|exact Hmod]. simpl.
  apply (append_to_fits
           (fun k => k ∈ texts \/ k = "suggestive_patterns")
           (fun k it => match it with
                        | Str s => k ∈ texts /\ s ∈ texts
                        | Tup s t => k = "suggestive_patterns" /\ s ∈ texts /\ t ∈ texts
                        end)); auto.
Qed.

Lemma patterns_loop_shape self m texts rs :
  (forall k e, m !! k = Some e -> e_text e ∈ texts) ->
  forall p p',
    bundle_shape texts p ->
    patterns_loop self m rs p = Ok p' ->
    bundle_shape texts p'.
Proof.
  intros Hm. induction rs as [|r rs IH]; intros p p' Hp H; simpl in H.
  - now injection H as <-.
  - destruct (dispatch self m p r) as [p1|] eqn:Hd; [|discriminate].
    simpl in H. eapply IH; [|exact H]. eapply dispatch_shape; eassumption.
Qed.

(** Every bundle that the pattern analyzer returns is well shaped: no key
    maps to an empty list; the keys of the findings are entity texts or
    'suggestive_patterns', and a pair occurs under 'suggestive_patterns'
    only; the modifiers hold texts only, under entity texts; and every text
    in the bundle is the text of one of the entities. *)
Theorem find_bundle_shape (self : RadGraphAnalyzer) (es : list entity)
    (rs : list relation) (p : patterns) :
  find_pneumonia_patterns self es rs = Ok p ->
  bundle_shape (map e_text es) p.
Proof.
  intros H. unfold find_pneumonia_patterns in H.
  eapply patterns_loop_shape; [| |exact H].
  - intros k e He. apply entity_map_elem in He as [He _].
    now apply list_elem_of_fmap_2.
  - split; intros k l Hl; simpl in Hl; now rewrite lookup_empty in Hl.
Qed.

Lemma find_bundle_shape_witness :
  bundle_shape (map e_text sample_entities)
    {| findings := {[ "process" := [Str "cardiopulmonary"] ]};
       locations := ∅;
       modifiers := <[ "process" := [Str "acute"] ]>
                      {[ "hiatal hernia" := [Str "moderate"] ]} |}.
Proof.
  apply (find_bundle_shape init sample_entities sample_relations).
  vm_compute. reflexivity.
Defined.

Lemma items_total_insert (k : string) (l : list item)
    (d : gmap string (list item)) :
  d !! k = None ->
  items_total (<[k := l]> d) = (length l + items_total d)%nat.
Proof.
  intros Hk. unfold items_total.
  apply (map_fold_insert_L
           (fun (_ : string) (l : list item) (acc : nat) => (length l + acc)%nat));
    [intros; lia | assumption].
Qed.

(** One append, whatever the key, adds one item. *)
Lemma items_total_append_to (k : string) (v : item)
    (d : gmap string (list item)) :
  items_total (append_to k v d) = S (items_total d).
Proof.
  unfold append_to. destruct (d !! k) as [l|] eqn:Hk; simpl.
  - rewrite <- (insert_delete_id d k l Hk) at 2.
    rewrite <- insert_delete_eq.
    rewrite !items_total_insert by apply lookup_delete_eq.
    rewrite length_app. simpl. lia.
  - now rewrite items_total_insert.
Qed.

Lemma dispatch_size self m p r p' :
  dispatch self m p r = Ok p' ->
  (bundle_size p <= bundle_size p' <= S (bundle_size p))%nat.
Proof.
  unfold dispatch, lookup_entity, bundle_size.
  destruct (m !! r_source r) as [s|]; [|discriminate].
  destruct (m !! r_target r) as [t|]; [|discriminate]. simpl.
  repeat match goal with
         | |- context [if ?b then _ else _] => destruct b
         end;
    intros [= <-]; simpl; rewrite ?items_total_append_to; lia.
Qed.

(** A bundle holds at most one item for each relation: no relation is
    recorded twice, under any key. *)
Theorem find_bundle_size (self : RadGraphAnalyzer) (es : list entity)
    (rs : list relation) (p : patterns) :
  find_pneumonia_patterns self es rs = Ok p ->
  (bundle_size p <= length rs)%nat.
Proof.
  unfold find_pneumonia_patterns.
  enough (forall p0 p',
             patterns_loop self (make_entity_map es) rs p0 = Ok p' ->
             (bundle_size p' <= length rs + bundle_size p0)%nat) as Hgen.
  { intros H. apply Hgen in H. change (bundle_size empty_patterns) with O in H. lia. }
  induction rs as [|r rs IH]; intros p0 p' H; simpl in H.
  - injection H as <-. simpl. lia.
  - destruct (dispatch self (make_entity_map es) p0 r) as [p1|] eqn:Hd;
      [|discriminate].
    simpl in H. apply IH in H. apply dispatch_size in Hd. simpl. lia.
Qed.

Lemma find_bundle_size_witness :
  (bundle_size
     {| findings := {[ "process" := [Str "cardiopulmonary"] ]};
        locations := ∅;
        modifiers := <[ "process" := [Str "acute"] ]>
                       {[ "hiatal hernia" := [Str "moderate"] ]} |}
   <= length sample_relations)%nat.
Proof.
  apply (find_bundle_size init sample_entities sample_relations).
  vm_compute. reflexivity.
Defined.

(** ** The histogram, key by key *)

Lemma incr_lookup (k c : string) (d : gmap string nat) :
  default O (incr k d !! c) =
  if decide (k = c) then S (default O (d !! c)) else default O (d !! c).
Proof.
  unfold incr. destruct (decide (k = c)) as [->|Hne].
  - now rewrite lookup_insert_eq.
  - now rewrite lookup_insert_ne.
Qed.

Lemma incr_positive (k : string) (d : gmap string nat) :
  (forall c n, d !! c = Some n -> (0 < n)%nat) ->
  forall c n, incr k d !! c = Some n -> (0 < n)%nat.
Proof.
  intros Hd c n H. unfold incr in H.
  apply lookup_insert_Some in H as [[_ <-]|[_ H]]; [lia | eauto].
Qed.

Lemma certainty_loop_counts (entities : list entity) :
  forall counts,
    exists h,
      certainty_loop entities counts = Ok h /\
      (forall c, default O (h !! c) =
                 (length (filter (fun e => certainty_of e = Some c) entities)
                  + default O (counts !! c))%nat) /\
      ((forall c n, counts !! c = Some n -> (0 < n)%nat) ->
       forall c n, h !! c = Some n -> (0 < n)%nat).
Proof.
  induction entities as [|e es IH]; intros counts; simpl.
  - exists counts. repeat split; auto.
  - destruct (PyStr.contains "::" (e_type e)) eqn:Hc.
    + destruct (split_sep_two "::" (e_type e)) as (a & b & l & Hsplit);
        [discriminate | assumption|].
      assert (certainty_of e = Some b) as Hb
        by (unfold certainty_of; now rewrite Hc, Hsplit).
      rewrite Hsplit. simpl.
      destruct (IH (incr b counts)) as (h & -> & Hh & Hpos).
      exists h. split; [reflexivity|]. split.
      * intros c. rewrite Hh, incr_lookup.
        destruct (decide (b = c)) as [->|Hne].
        -- rewrite filter_cons_True by assumption. simpl. lia.
        -- rewrite filter_cons_False by congruence. reflexivity.
      * intros Hcounts. apply Hpos. now apply incr_positive.
    + assert (certainty_of e = None) as Hn
        by (unfold certainty_of; now rewrite Hc).
      destruct (IH counts) as (h & -> & Hh & Hpos).
      exists h. split; [reflexivity|]. split; [|assumption].
      intros c. rewrite Hh. rewrite filter_cons_False by congruence. reflexivity.
Qed.

(** [analyze_certainty] never raises, on any list of entities. The count
    that it returns for a certainty is the number of entities, of any
    category, whose type contains '::' and has that certainty as its second
    piece; a certainty that no entity has is not a key of the histogram. *)
Theorem analyze_certainty_counts (self : RadGraphAnalyzer)
    (entities : list entity) :
  exists h,
    analyze_certainty self entities = Ok h /\
    (forall c, default O (h !! c) =
               length (filter (fun e => certainty_of e = Some c) entities)) /\
    (forall c n, h !! c = Some n -> (0 < n)%nat).
Proof.
  destruct (certainty_loop_counts entities ∅) as (h & Hh & Hc & Hpos).
  exists h. split; [exact Hh|]. split.
  - intros c. rewrite Hc, lookup_empty. simpl. lia.
  - apply Hpos. intros c n H. now rewrite lookup_empty in H.
Qed.

Lemma certainty_loop_app (es1 es2 : list entity) :
  forall counts,
    certainty_loop (es1 ++ es2) counts =
    let* h := certainty_loop es1 counts in certainty_loop es2 h.
Proof.
  induction es1 as [|e es1 IH]; intros counts; simpl; [reflexivity|].
  destruct (PyStr.contains "::" (e_type e)); [|apply IH].
  destruct (PyStr.split_sep "::" (e_type e) !! 1%nat); [apply IH | reflexivity].
Qed.

Section Labels.

Import PyStr.

Lemma split_at_no_colon (a : string) :
  forall cur s,
    no_colon a = true ->
    split_at "::" O cur (a +:+ s) = split_at "::" O (cur +:+ a) s.
Proof.
  induction a as [|c a IH]; intros cur s Ha.
  - now rewrite append_nil_l, append_empty_r.
  - simpl in Ha. apply andb_prop in Ha as [Hc Ha].
    apply negb_true_iff in Hc.
    rewrite append_cons. simpl split_at. rewrite Hc. simpl.
    rewrite IH by assumption. now rewrite snoc_append.
Qed.

Lemma split_at_no_sep (sep s : string) :
  forall cur,
    contains sep s = false ->
    split_at sep O cur s = [cur +:+ s].
Proof.
  induction s as [|c s IH]; intros cur H; rewrite contains_unfold in H.
  - simpl. now rewrite append_empty_r.
  - apply orb_false_iff in H as [Hst Hc]. simpl split_at. rewrite Hst.
    rewrite IH by assumption. now rewrite snoc_append.
Qed.

(** A label 'category::certainty' splits into its two parts. *)
Lemma split_label (cat cert : string) :
  no_colon cat = true -> contains "::" cert = false ->
  split_sep "::" (cat +:+ "::" +:+ cert) = [cat; cert] /\
  contains "::" (cat +:+ "::" +:+ cert) = true.
Proof.
  intros Hcat Hcert. split.
  - unfold split_sep. rewrite split_at_no_colon by assumption.
    rewrite append_nil_l.
    change ("::" +:+ cert) with (String ":" (String ":" cert)).
    simpl. now rewrite split_at_no_sep.
  - apply contains_spec. now exists cat, cert.
Qed.

End Labels.

(** An entity whose type is 'category::certainty', with no colon in the
    category and no '::' in the certainty, adds one to the count of that
    certainty and changes no other count, whatever its category. *)
Theorem analyze_certainty_snoc (self : RadGraphAnalyzer)
    (entities : list entity) (e : entity) (cat cert : string)
    (h : gmap string nat) :
  e_type e = cat +:+ "::" +:+ cert ->
  no_colon cat = true ->
  PyStr.contains "::" cert = false ->
  analyze_certainty self entities = Ok h ->
  analyze_certainty self (entities ++ [e]) =
    Ok (<[cert := S (default O (h !! cert))]> h).
Proof.
  intros Ht Hcat Hcert Hh. unfold analyze_certainty in *.
  rewrite certainty_loop_app, Hh. simpl.
  destruct (split_label cat cert Hcat Hcert) as [Hsplit Hc].
  now rewrite Ht, Hc, Hsplit.
Qed.

Lemma analyze_certainty_snoc_witness :
  analyze_certainty init
    ([ {| e_id := "1"; e_text := "acute";
          e_type := "Observation::definitely absent";
          e_start_ix := 3; e_end_ix := 3 |} ] ++
     [ {| e_id := "2"; e_text := "cardiopulmonary";
          e_type := "Anatomy::definitely present";
          e_start_ix := 4; e_end_ix := 4 |} ]) =
    Ok (<[ "definitely present" := 1%nat ]> {[ "definitely absent" := 1%nat ]}).
Proof.
  rewrite (analyze_certainty_snoc init
             [ {| e_id := "1"; e_text := "acute";
                  e_type := "Observation::definitely absent";
                  e_start_ix := 3; e_end_ix := 3 |} ]
             {| e_id := "2"; e_text := "cardiopulmonary";
                e_type := "Anatomy::definitely present";
                e_start_ix := 4; e_end_ix := 4 |}
             "Anatomy" "definitely present"
             {[ "definitely absent" := 1%nat ]}).
  - vm_compute. reflexivity.
  - reflexivity.
  - reflexivity.
  - reflexivity.
  - vm_compute. reflexivity.
Defined.

(** ** The graph of the feature record *)

Lemma graph_inv_empty : graph_inv ∅ empty_graph.
Proof.
  split; [now rewrite fmap_empty|]. split.
  - intros n. simpl. rewrite !lookup_empty. split; intros [? [=]].
  - intros u l v ty H. simpl in H. now rewrite lookup_empty in H.
Qed.

Lemma graph_inv_add_node m G k e :
  graph_inv m G -> graph_inv (<[k := e]> m) (add_node k e G).
Proof.
  intros (Hn & Hs & He). split; [|split].
  - simpl. now rewrite Hn, fmap_insert.
  - intros n. simpl. rewrite lookup_insert_is_Some.
    destruct (g_succ G !! k) as [l|] eqn:Hk.
    + rewrite Hs. destruct (decide (k = n)) as [<-|Hne]; [|tauto].
      assert (is_Some (m !! k)) by (apply Hs; eauto). tauto.
    + rewrite lookup_insert_is_Some, Hs. tauto.
  - intros u l v ty Hu Hin. simpl in Hu. rewrite lookup_insert_is_Some.
    destruct (decide (k = v)) as [|Hne]; [now left|]. right. split; [assumption|].
    destruct (g_succ G !! k) as [l0|] eqn:Hk.
    + eapply He; eassumption.
    + apply lookup_insert_Some in Hu as [[_ <-]|[_ Hu]].
      * now apply elem_of_nil in Hin.
      * eapply He; eassumption.
Qed.

Lemma touch_node_known m G n :
  graph_inv m G -> is_Some (m !! n) -> touch_node n G = G.
Proof.
  intros (_ & Hs & _) Hn. apply Hs in Hn as [l Hl].
  unfold touch_node. now rewrite Hl.
Qed.

Lemma set_succ_elem (v ty : string) (l : list (string * string)) w t :
  (w, t) ∈ set_succ v ty l -> (w, t) ∈ l \/ w = v.
Proof.
  induction l as [|[w' t'] l IH]; simpl; intros H.
  - apply list_elem_of_singleton in H. injection H as -> _. now right.
  - destruct (String.eqb_spec w' v) as [->|Hne].
    + apply elem_of_cons in H as [H|H].
      * injection H as -> _. now right.
      * left. now apply list_elem_of_further.
    + apply elem_of_cons in H as [H|H].
      * left. rewrite H. apply list_elem_of_here.
      * destruct (IH H) as [Hl|Hv]; [left; now apply list_elem_of_further | now right].
Qed.

Lemma graph_inv_add_edge m G u v ty :
  graph_inv m G -> is_Some (m !! u) -> is_Some (m !! v) ->
  graph_inv m (add_edge u v ty G).
Proof.
  intros HG Hu Hv. unfold add_edge.
  rewrite (touch_node_known m G u HG Hu), (touch_node_known m G v HG Hv).
  destruct HG as (Hn & Hs & He). split; [exact Hn|]. split.
  - intros n. simpl. rewrite lookup_insert_is_Some, Hs.
    destruct (decide (u = n)) as [<-|Hne]; tauto.
  - intros w l x t Hw Hin. simpl in Hw.
    apply lookup_insert_Some in Hw as [[_ <-]|[_ Hw]].
    + apply set_succ_elem in Hin as [Hin| ->]; [|assumption].
      destruct (g_succ G !! u) as [l0|] eqn:Hl0; simpl in Hin.
      * eapply He; eassumption.
      * now apply elem_of_nil in Hin.
    + eapply He; eassumption.
Qed.

Lemma graph_inv_nodes (es : list entity) :
  forall m G,
    graph_inv m G ->
    graph_inv (foldl (fun m e => <[e_id e := e]> m) m es)
              (foldl (fun G e => add_node (e_id e) e G) G es).
Proof.
  induction es as [|e es IH]; intros m G HG; simpl; [assumption|].
  apply IH. now apply graph_inv_add_node.
Qed.

Lemma graph_inv_edges m (rs : list relation) :
  forall G,
    graph_inv m G ->
    Forall (fun r => is_Some (m !! r_source r) /\ is_Some (m !! r_target r)) rs ->
    graph_inv m (foldl (fun G r => add_edge (r_source r) (r_target r) (r_type r) G) G rs).
Proof.
  induction rs as [|r rs IH]; intros G HG HF; simpl; [assumption|].
  apply Forall_cons in HF as [[Hs Ht] HF].
  apply IH; [|assumption]. now apply graph_inv_add_edge.
Qed.

(** With known endpoints the graph of [extract_features] holds exactly the
    entities, and its edges end at entities. *)
Lemma graph_inv_build (es : list entity) (rs : list relation) :
  Forall (endpoints_known es) rs ->
  graph_inv (make_entity_map es) (build_graph es rs).
Proof.
  intros HF. unfold build_graph. apply graph_inv_edges.
  - apply graph_inv_nodes, graph_inv_empty.
  - eapply Forall_impl; [exact HF|]. intros r Hr. now apply endpoints_known_lookup.
Qed.

Lemma edges_loop_Ok m G (edges : list (string * string)) :
  graph_inv m G ->
  (forall v ty, (v, ty) ∈ edges -> is_Some (m !! v)) ->
  forall o, exists o', edges_loop G edges o = Ok o'.
Proof.
  intros HG. induction edges as [|[v ty] edges IH]; intros Hin o; simpl.
  - now exists o.
  - destruct (Hin v ty (list_elem_of_here _ _)) as [e He].
    destruct HG as (Hn & _). rewrite Hn, lookup_fmap, He. simpl.
    assert (forall w t, (w, t) ∈ edges -> is_Some (m !! w)) as Hin'
      by (intros w t H; eapply Hin; apply list_elem_of_further; exact H).
    destruct (String.eqb ty "located_at"); simpl; [now apply IH|].
    destruct (String.eqb ty "modify"); simpl; [now apply IH|].
    destruct (String.eqb ty "suggestive_of"); simpl; now apply IH.
Qed.

Lemma split_sep_second (s c : string) :
  PyStr.split_sep "::" s !! 1%nat = Some c -> PyStr.contains "::" s = true.
Proof.
  intros H. destruct (PyStr.contains "::" s) eqn:Hc; [reflexivity|].
  unfold PyStr.split_sep in H. rewrite split_at_no_sep in H by assumption.
  discriminate.
Qed.

Lemma observations_loop_Ok m G (es : list entity) :
  graph_inv m G ->
  Forall observation_has_certainty es ->
  forall obs, exists obs', observations_loop G es obs = Ok obs'.
Proof.
  intros HG. induction es as [|e es IH]; intros HF obs; simpl.
  - now exists obs.
  - apply Forall_cons in HF as [He HF].
    destruct (PyStr.contains "Observation" (e_type e)) eqn:Ho; [|now apply IH].
    destruct (split_sep_two "::" (e_type e)) as (a & b & l & ->);
      [discriminate | now apply He|]. simpl.
    assert (forall v ty, (v, ty) ∈ out_edges G (e_id e) -> is_Some (m !! v))
      as Hedges.
    { intros v ty Hin. unfold out_edges in Hin.
      destruct (g_succ G !! e_id e) as [l0|] eqn:Hl0; simpl in Hin.
      - destruct HG as (_ & _ & Hedge). eapply Hedge; eassumption.
      - now apply elem_of_nil in Hin. }
    match goal with
    | |- context [edges_loop G ?edges ?o] =>
        destruct (edges_loop_Ok m G edges HG Hedges o) as [o2 ->]
    end.
    simpl. now apply IH.
Qed.

Lemma observations_loop_certainty G (es : list entity) :
  forall obs obs',
    observations_loop G es obs = Ok obs' ->
    Forall observation_has_certainty es.
Proof.
  induction es as [|e es IH]; intros obs obs' H; [constructor|].
  simpl in H.
  destruct (PyStr.contains "Observation" (e_type e)) eqn:Ho.
  - destruct (PyStr.split_sep "::" (e_type e) !! 1%nat) as [c|] eqn:Hc;
      [|discriminate].
    simpl in H.
    destruct (edges_loop G (out_edges G (e_id e)) _) as [o2|]; [|discriminate].
    simpl in H. constructor; [|eapply IH; eassumption].
    intros _. eapply split_sep_second; eassumption.
  - constructor; [|eapply IH; eassumption].
    unfold observation_has_certainty. congruence.
Qed.

(** ** When the feature record is returned *)

(** [extract_features] returns a record exactly when the parser returns its
    lists, the target of every relation is the id of a parsed entity, and
    every entity whose type contains 'Observation' also contains '::'. *)
Theorem extract_features_succeeds_iff (self : RadGraphAnalyzer) (x : extract) :
  (exists f, extract_features self x = Ok f) <->
  exists es rs,
    parse_radgraph_format self x = Ok (es, rs) /\
    Forall (fun r => r_target r ∈ map e_id es) rs /\
    Forall observation_has_certainty es.
Proof.
  unfold extract_features. split.
  - intros [f H].
    destruct (parse_radgraph_format self x) as [[es rs]|] eqn:Hp; [|discriminate].
    simpl in H. exists es, rs. split; [reflexivity|].
    destruct (find_pneumonia_patterns self es rs) as [p|] eqn:Hf; [|discriminate].
    simpl in H.
    destruct (analyze_certainty self es); [|discriminate]. simpl in H.
    destruct (observations_loop (build_graph es rs) es ∅) as [obs|] eqn:Ho;
      [|discriminate].
    split.
    + assert (Forall (endpoints_known es) rs) as HF
        by (eapply find_Ok_known; eassumption).
      eapply Forall_impl; [exact HF|]. now intros r [_ Hr].
    + eapply observations_loop_certainty; eassumption.
  - intros (es & rs & Hp & Ht & Hc). rewrite Hp. simpl.
    assert (Forall (endpoints_known es) rs) as HF.
    { apply Forall_forall. intros r Hr. split.
      - eapply parse_sources; eassumption.
      - rewrite Forall_forall in Ht. now apply Ht. }
    destruct (find_known_Ok self es rs HF) as [p ->].
    simpl.
    destruct (analyze_certainty_total self es) as (h & -> & _). simpl.
    destruct (observations_loop_Ok (make_entity_map es) (build_graph es rs) es
                (graph_inv_build es rs HF) Hc ∅) as [obs ->].
    simpl. eauto.
Qed.

Lemma extract_features_succeeds_iff_witness :
  exists f, extract_features init sample_extract = Ok f.
Proof.
  apply (proj2 (extract_features_succeeds_iff init sample_extract)).
  exists sample_entities, sample_relations.
  split; [reflexivity|]. split.
  - unfold sample_relations. repeat constructor; simpl; in_list.
  - unfold sample_entities, observation_has_certainty.
    repeat constructor; simpl; intros _; reflexivity.
Defined.

Lemma observations_loop_IndexError m G (es : list entity) :
  graph_inv m G ->
  Exists (fun e => ~ observation_has_certainty e) es ->
  forall obs, observations_loop G es obs = Raise IndexError.
Proof.
  intros HG. induction es as [|e es IH]; intros HE obs; [inversion HE|].
  simpl. unfold observation_has_certainty in HE at 1.
  destruct (PyStr.contains "Observation" (e_type e)) eqn:Ho.
  - destruct (PyStr.contains "::" (e_type e)) eqn:Hc.
    + destruct (split_sep_two "::" (e_type e)) as (a & b & l & ->);
        [discriminate | assumption|]. simpl.
      assert (forall v ty, (v, ty) ∈ out_edges G (e_id e) -> is_Some (m !! v))
        as Hedges.
      { intros v ty Hin. unfold out_edges in Hin.
        destruct (g_succ G !! e_id e) as [l0|] eqn:Hl0; simpl in Hin.
        - destruct HG as (_ & _ & Hedge). eapply Hedge; eassumption.
        - now apply elem_of_nil in Hin. }
      match goal with
      | |- context [edges_loop G ?edges ?o] =>
          destruct (edges_loop_Ok m G edges HG Hedges o) as [o2 ->]
      end.
      simpl. apply IH.
      apply Exists_cons in HE as [HE|HE]; [|assumption].
      exfalso. apply HE. intros _. exact Hc.
    + unfold PyStr.split_sep. rewrite split_at_no_sep by assumption. reflexivity.
  - apply IH. apply Exists_cons in HE as [HE|HE]; [|assumption].
    exfalso. apply HE. rewrite Ho. discriminate.
Qed.

(** When the parser returns its lists and every relation target is known,
    an entity whose type contains 'Observation' but not '::' makes
    [extract_features] raise an IndexError, although [analyze_certainty]
    passes over such an entity without any error. *)
Theorem extract_features_IndexError (self : RadGraphAnalyzer) (x : extract)
    (es : list entity) (rs : list relation) :
  parse_radgraph_format self x = Ok (es, rs) ->
  Forall (fun r => r_target r ∈ map e_id es) rs ->
  Exists (fun e => PyStr.contains "Observation" (e_type e) = true /\
                   PyStr.contains "::" (e_type e) = false) es ->
  extract_features self x = Raise IndexError /\
  exists h, analyze_certainty self es = Ok h.
Proof.
  intros Hp Ht HE.
  destruct (analyze_certainty_total self es) as (h & Hh & _).
  split; [|eauto].
  unfold extract_features. rewrite Hp. simpl.
  assert (Forall (endpoints_known es) rs) as HF.
  { apply Forall_forall. intros r Hr. split.
    - eapply parse_sources; eassumption.
    - rewrite Forall_forall in Ht. now apply Ht. }
  destruct (find_known_Ok self es rs HF) as [p ->]. simpl.
  rewrite Hh. simpl.
  rewrite (observations_loop_IndexError (make_entity_map es));
    [reflexivity | now apply graph_inv_build |].
  eapply Exists_impl; [exact HE|].
  intros e [Ho Hc] He. unfold observation_has_certainty in He. 
  rewrite (He Ho) in Hc. discriminate.
Qed.

Lemma extract_features_IndexError_witness :
  extract_features init bare_observation_extract = Raise IndexError /\
  exists h,
    analyze_certainty init
      [ {| e_id := "1"; e_text := "patchy"; e_type := "Observation::uncertain";
           e_start_ix := 0; e_end_ix := 0 |};
        {| e_id := "2"; e_text := "opacity"; e_type := "Observation";
           e_start_ix := 1; e_end_ix := 1 |} ] = Ok h.
Proof.
  apply (extract_features_IndexError init bare_observation_extract
           [ {| e_id := "1"; e_text := "patchy"; e_type := "Observation::uncertain";
                e_start_ix := 0; e_end_ix := 0 |};
             {| e_id := "2"; e_text := "opacity"; e_type := "Observation";
                e_start_ix := 1; e_end_ix := 1 |} ]
           [ {| r_source := "1"; r_target := "2"; r_type := "modify" |} ]).
  - reflexivity.
  - repeat constructor; simpl; in_list.
  - apply Exists_cons_tl, Exists_cons_hd. split; reflexivity.
Defined.

(** ** The observation records *)

Lemma observations_loop_dom G (es : list entity) :
  forall obs obs',
    observations_loop G es obs = Ok obs' ->
    dom obs' =
    dom obs ∪
    list_to_set
      (map e_id (filter (fun e => PyStr.contains "Observation" (e_type e) = true) es)).
Proof.
  induction es as [|e es IH]; intros obs obs' H; simpl in H.
  - injection H as <-. simpl. now rewrite union_empty_r_L.
  - destruct (PyStr.contains "Observation" (e_type e)) eqn:Ho.
    + destruct (PyStr.split_sep "::" (e_type e) !! 1%nat) as [c|]; [|discriminate].
      simpl in H.
      destruct (edges_loop G (out_edges G (e_id e)) _) as [o2|]; [|discriminate].
      simpl in H. apply IH in H. rewrite H.
      rewrite filter_cons_True by assumption. simpl.
      rewrite dom_insert_L, (comm_L (∪) {[e_id e]} (dom obs)).
      now rewrite <- (assoc_L (∪)).
    + rewrite filter_cons_False by congruence. now apply IH.
Qed.

Lemma parse_ids self x es rs items :
  parse_radgraph_format self x = Ok (es, rs) ->
  x_entities x = Some items ->
  map e_id es = map fst items.
Proof.
  intros Hp Hi.
  apply parse_radgraph_format_Ok in Hp as (text & items' & _ & Hi' & HF & _).
  assert (items' = items) as -> by congruence. clear Hi Hi'.
  induction HF as [|it e items es He _ IH]; [reflexivity|].
  simpl. rewrite IH. f_equal. now apply make_entity_Ok in He.
Qed.

(** The keys of the observations of a returned record are the ids of the
    parsed entities whose type contains 'Observation'; an input mapping has
    distinct keys, and then there are as many observation records as the
    metric num_observations says. *)
Theorem observation_keys (self : RadGraphAnalyzer) (x : extract)
    (f : features) :
  extract_features self x = Ok f ->
  exists es rs items,
    parse_radgraph_format self x = Ok (es, rs) /\
    x_entities x = Some items /\
    dom (f_observations f) =
      list_to_set
        (map e_id
           (filter (fun e => PyStr.contains "Observation" (e_type e) = true) es)) /\
    (NoDup (map fst items) ->
     size (f_observations f) = num_observations (f_graph_metrics f)).
Proof.
  intros H. unfold extract_features in H.
  destruct (parse_radgraph_format self x) as [[es rs]|] eqn:Hp; [|discriminate].
  simpl in H.
  destruct (find_pneumonia_patterns self es rs) as [p|]; [|discriminate].
  simpl in H.
  destruct (analyze_certainty self es) as [h|]; [|discriminate]. simpl in H.
  destruct (observations_loop (build_graph es rs) es ∅) as [obs|] eqn:Ho;
    [|discriminate].
  simpl in H. injection H as <-. simpl.
  pose proof Hp as Hp'.
  apply parse_radgraph_format_Ok in Hp' as (text & items & _ & Hi & _ & _).
  exists es, rs, items. split; [reflexivity|]. split; [assumption|].
  apply observations_loop_dom in Ho. rewrite dom_empty_L, union_empty_l_L in Ho.
  split; [exact Ho|].
  intros Hnd. rewrite <- size_dom, Ho. unfold count_type.
  rewrite size_list_to_set; [now rewrite length_map|].
  rewrite <- (parse_ids _ _ _ _ _ Hp Hi) in Hnd.
  eapply sublist_NoDup; [exact Hnd|].
  apply fmap_sublist, sublist_filter.
Qed.

Lemma extract_sample :
  extract_features init sample_extract = Ok sample_features.
Proof. vm_compute. reflexivity. Qed.

Lemma observation_keys_witness :
  dom (f_observations sample_features) =
    list_to_set
      (map e_id
         (filter (fun e => PyStr.contains "Observation" (e_type e) = true)
                 sample_entities)) /\
  size (f_observations sample_features) =
    num_observations (f_graph_metrics sample_features).
Proof.
  destruct (observation_keys init sample_extract sample_features)
    as (es & rs & items & Hp & Hi & Hdom & Hsize);
    [vm_compute; reflexivity|].
  rewrite parse_sample in Hp. injection Hp as <- <-.
  injection Hi as <-.
  split; [exact Hdom|].
  apply Hsize. simpl. repeat constructor; not_in_list.
Defined.

(** ** Totals under the schema *)

Lemma schema_label (l : string) :
  l ∈ ENTITY_TYPES ->
  PyStr.contains "::" l = true /\
  (PyStr.contains "Anatomy" l = true /\ PyStr.contains "Observation" l = false \/
   PyStr.contains "Anatomy" l = false /\ PyStr.contains "Observation" l = true).
Proof.
  unfold ENTITY_TYPES. intros H.
  repeat (apply elem_of_cons in H as [->|H];
          [split; [reflexivity|]; (left + right); split; reflexivity|]).
  now apply elem_of_nil in H.
Qed.

Lemma filter_all {A} (P : A -> Prop) `{forall x, Decision (P x)} (l : list A) :
  Forall P l -> filter P l = l.
Proof.
  induction 1 as [|a l Ha _ IH]; [reflexivity|].
  now rewrite filter_cons_True, IH.
Qed.

Lemma filter_partition_length {A} (P Q : A -> Prop)
    `{forall x, Decision (P x)} `{forall x, Decision (Q x)} (l : list A) :
  Forall (fun a => (P a /\ ~ Q a) \/ (~ P a /\ Q a)) l ->
  (length (filter P l) + length (filter Q l) = length l)%nat.
Proof.
  induction 1 as [|a l Ha _ IH]; [reflexivity|].
  destruct Ha as [[HP HQ]|[HP HQ]].
  - rewrite filter_cons_True, filter_cons_False by assumption. simpl. lia.
  - rewrite filter_cons_False, filter_cons_True by assumption. simpl. lia.
Qed.

(** When every parsed entity has one of the four types of [ENTITY_TYPES],
    the anatomical sites and the observations add up to the entities, and
    the values of the certainty histogram add up to the number of entities
    too (not to the number of observations). *)
Theorem schema_totals (self : RadGraphAnalyzer) (x : extract) (f : features)
    (es : list entity) (rs : list relation) :
  extract_features self x = Ok f ->
  parse_radgraph_format self x = Ok (es, rs) ->
  Forall (fun e => e_type e ∈ ENTITY_TYPES) es ->
  (num_anatomical_sites (f_graph_metrics f)
   + num_observations (f_graph_metrics f) = num_entities (f_graph_metrics f))%nat /\
  histogram_total (f_certainty_analysis f) = num_entities (f_graph_metrics f).
Proof.
  intros H Hp HF. unfold extract_features in H. rewrite Hp in H. simpl in H.
  destruct (find_pneumonia_patterns self es rs) as [p|]; [|discriminate].
  simpl in H.
  destruct (analyze_certainty_total self es) as (h & Hh & Ht).
  rewrite Hh in H. simpl in H.
  destruct (observations_loop (build_graph es rs) es ∅) as [obs|]; [|discriminate].
  simpl in H. injection H as <-. simpl. split.
  - unfold count_type. apply filter_partition_length.
    eapply Forall_impl; [exact HF|]. intros e He.
    apply schema_label in He as [_ [[-> ->]|[-> ->]]]; [left | right];
      split; congruence.
  - rewrite Ht. unfold count_separator, count_type.
    rewrite filter_all; [reflexivity|].
    eapply Forall_impl; [exact HF|]. intros e He.
    now apply schema_label in He as [-> _].
Qed.

Lemma schema_totals_witness :
  (num_anatomical_sites (f_graph_metrics sample_features)
   + num_observations (f_graph_metrics sample_features)
   = num_entities (f_graph_metrics sample_features))%nat /\
  histogram_total (f_certainty_analysis sample_features) =
    num_entities (f_graph_metrics sample_features).
Proof.
  apply (schema_totals init sample_extract sample_features
           sample_entities sample_relations).
  - vm_compute. reflexivity.
  - reflexivity.
  - unfold sample_entities, ENTITY_TYPES. repeat constructor; simpl; in_list.
Defined.

(** ** What an observation record holds *)

Lemma nodes_no_edges (es : list entity) :
  forall G,
    (forall u l, g_succ G !! u = Some l -> l = []) ->
    forall u l,
      g_succ (foldl (fun G e => add_node (e_id e) e G) G es) !! u = Some l ->
      l = [].
Proof.
  induction es as [|e es IH]; intros G HG u l H; simpl in H; [eauto|].
  eapply IH; [|exact H]. clear H. intros u' l' H. simpl in H.
  destruct (g_succ G !! e_id e) eqn:Hk; [eauto|].
  apply lookup_insert_Some in H as [[_ <-]|[_ H]]; eauto.
Qed.

Lemma out_edges_nodes (es : list entity) (u : string) :
  out_edges (foldl (fun G e => add_node (e_id e) e G) empty_graph es) u = [].
Proof.
  unfold out_edges.
  destruct (g_succ _ !! u) as [l|] eqn:Hl; [|reflexivity]. simpl.
  eapply nodes_no_edges; [|exact Hl].
  intros u' l' H. simpl in H. now rewrite lookup_empty in H.
Qed.

(** The out-edges of a node after the relations are added: the successor
    dict of the node is assigned at the target of each of its relations in
    turn. *)
Lemma out_edges_edges m (rs : list relation) (u : string) :
  forall G,
    graph_inv m G ->
    Forall (fun r => is_Some (m !! r_source r) /\ is_Some (m !! r_target r)) rs ->
    out_edges
      (foldl (fun G r => add_edge (r_source r) (r_target r) (r_type r) G) G rs) u =
    foldl (fun l r => set_succ (r_target r) (r_type r) l) (out_edges G u)
          (filter (fun r => r_source r = u) rs).
Proof.
  induction rs as [|r rs IH]; intros G HG HF; simpl; [reflexivity|].
  apply Forall_cons in HF as [[Hs Ht] HF].
  rewrite IH; [|now apply graph_inv_add_edge | assumption].
  assert (out_edges (add_edge (r_source r) (r_target r) (r_type r) G) u =
          if decide (r_source r = u)
          then set_succ (r_target r) (r_type r) (out_edges G u)
          else out_edges G u) as ->.
  { unfold add_edge, out_edges.
    rewrite (touch_node_known m G _ HG Hs), (touch_node_known m G _ HG Ht). simpl.
    destruct (decide (r_source r = u)) as [<-|Hne].
    - now rewrite lookup_insert_eq.
    - now rewrite lookup_insert_ne. }
  destruct (decide (r_source r = u)) as [Heq|Hne].
  - now rewrite filter_cons_True by assumption.
  - now rewrite filter_cons_False by assumption.
Qed.

Lemma set_succ_fresh (v ty : string) (l : list (string * string)) :
  v ∉ map fst l -> set_succ v ty l = l ++ [(v, ty)].
Proof.
  induction l as [|[w t] l IH]; intros Hv; simpl; [reflexivity|].
  simpl in Hv. apply not_elem_of_cons in Hv as [Hne Hv].
  destruct (String.eqb_spec w v) as [->|_]; [contradiction|].
  now rewrite IH.
Qed.

Lemma set_succ_fold_fresh (rs : list relation) :
  forall l,
    NoDup (map fst l ++ map r_target rs) ->
    foldl (fun l r => set_succ (r_target r) (r_type r) l) l rs =
    l ++ map (fun r => (r_target r, r_type r)) rs.
Proof.
  induction rs as [|r rs IH]; intros l Hnd; simpl; [now rewrite app_nil_r|].
  assert (r_target r ∉ map fst l) as Hfresh.
  { apply NoDup_app in Hnd as (_ & Hdisj & _). intros Hin.
    apply (Hdisj _ Hin). apply list_elem_of_here. }
  rewrite set_succ_fresh by assumption.
  rewrite IH.
  - now rewrite <- app_assoc.
  - rewrite map_app. simpl. rewrite <- app_assoc. simpl.
    eapply NoDup_Permutation_proper; [|exact Hnd].
    simpl. apply Permutation_app_head. reflexivity.
Qed.

Lemma edge_texts_cons m kind v ty edges e :
  m !! v = Some e ->
  edge_texts m kind ((v, ty) :: edges) =
  if decide (ty = kind) then e_text e :: edge_texts m kind edges
  else edge_texts m kind edges.
Proof.
  intros He. unfold edge_texts. simpl. rewrite He.
  now destruct (decide (ty = kind)).
Qed.

Lemma edges_loop_texts m G (edges : list (string * string)) :
  graph_inv m G ->
  (forall v ty, (v, ty) ∈ edges -> is_Some (m !! v)) ->
  forall o,
    edges_loop G edges o =
    Ok {| o_text := o_text o;
          o_certainty := o_certainty o;
          o_locations := o_locations o ++ edge_texts m "located_at" edges;
          o_modifiers := o_modifiers o ++ edge_texts m "modify" edges;
          o_suggestions := o_suggestions o ++ edge_texts m "suggestive_of" edges |}.
Proof.
  intros HG. induction edges as [|[v ty] edges IH]; intros Hin o.
  - simpl. unfold edge_texts. simpl. rewrite !app_nil_r. now destruct o.
  - destruct (Hin v ty (list_elem_of_here _ _)) as [e He].
    assert (forall w t, (w, t) ∈ edges -> is_Some (m !! w)) as Hin'
      by (intros w t H; eapply Hin; apply list_elem_of_further; exact H).
    rewrite !(edge_texts_cons m _ v ty edges e He).
    simpl. destruct HG as (Hn & HG'). rewrite Hn, lookup_fmap, He. simpl.
    destruct (String.eqb_spec ty "located_at") as [->|H1]; simpl.
    { rewrite (IH Hin'). simpl. now rewrite <- app_assoc. }
    rewrite (decide_False (P := ty = "located_at")) by assumption.
    destruct (String.eqb_spec ty "modify") as [->|H2]; simpl.
    { rewrite (IH Hin'). simpl. now rewrite <- app_assoc. }
    rewrite (decide_False (P := ty = "modify")) by assumption.
    destruct (String.eqb_spec ty "suggestive_of") as [->|H3]; simpl.
    { rewrite (IH Hin'). simpl. now rewrite <- app_assoc. }
    rewrite (decide_False (P := ty = "suggestive_of")) by assumption.
    now rewrite (IH Hin').
Qed.

Lemma edge_texts_unfold m kind edge edges :
  edge_texts m kind (edge :: edges) =
  match (if decide (edge.2 = kind) then e_text <$> m !! edge.1 else None) with
  | Some t => t :: edge_texts m kind edges
  | None => edge_texts m kind edges
  end.
Proof. reflexivity. Qed.

Lemma neighbor_texts_unfold es r rs id kind :
  neighbor_texts es (r :: rs) id kind =
  match (if decide (r_source r = id /\ r_type r = kind)
         then e_text <$> make_entity_map es !! r_target r else None) with
  | Some t => t :: neighbor_texts es rs id kind
  | None => neighbor_texts es rs id kind
  end.
Proof. reflexivity. Qed.

Lemma edge_texts_relations (es : list entity) (rs : list relation)
    (id kind : string) :
  edge_texts (make_entity_map es) kind
    (map (fun r => (r_target r, r_type r)) (filter (fun r => r_source r = id) rs)) =
  neighbor_texts es rs id kind.
Proof.
  induction rs as [|r rs IH]; [reflexivity|].
  rewrite neighbor_texts_unfold.
  destruct (decide (r_source r = id)) as [Hs|Hs].
  - rewrite filter_cons_True by assumption.
    rewrite map_cons, edge_texts_unfold, IH. simpl.
    destruct (decide (r_type r = kind)) as [Hk|Hk].
    + now rewrite decide_True by auto.
    + now rewrite decide_False by tauto.
  - rewrite filter_cons_False by assumption. rewrite IH.
    now rewrite decide_False by tauto.
Qed.

Lemma observations_loop_other G (es : list entity) :
  forall obs obs' k,
    observations_loop G es obs = Ok obs' ->
    k ∉ map e_id es ->
    obs' !! k = obs !! k.
Proof.
  induction es as [|e es IH]; intros obs obs' k H Hk; simpl in H.
  - now injection H as <-.
  - simpl in Hk. apply not_elem_of_cons in Hk as [Hne Hk].
    destruct (PyStr.contains "Observation" (e_type e)); [|now apply IH].
    destruct (PyStr.split_sep "::" (e_type e) !! 1%nat) as [c|]; [|discriminate].
    simpl in H.
    destruct (edges_loop G (out_edges G (e_id e)) _) as [o2|]; [|discriminate].
    simpl in H. rewrite (IH _ _ _ H Hk). now apply lookup_insert_ne.
Qed.

Lemma observations_loop_at G (es : list entity) :
  forall obs obs' e,
    observations_loop G es obs = Ok obs' ->
    NoDup (map e_id es) ->
    e ∈ es ->
    PyStr.contains "Observation" (e_type e) = true ->
    obs !! e_id e = None ->
    exists c o2,
      PyStr.split_sep "::" (e_type e) !! 1%nat = Some c /\
      edges_loop G (out_edges G (e_id e))
        {| o_text := e_text e; o_certainty := c;
           o_locations := []; o_modifiers := []; o_suggestions := [] |} = Ok o2 /\
      obs' !! e_id e = Some o2.
Proof.
  induction es as [|a es IH]; intros obs obs' e H Hnd He Ho Hnone.
  - now apply elem_of_nil in He.
  - simpl in Hnd. apply NoDup_cons in Hnd as [Ha Hnd].
    simpl in H. apply elem_of_cons in He as [->|He].
    + rewrite Ho in H.
      destruct (PyStr.split_sep "::" (e_type a) !! 1%nat) as [c|]; [|discriminate].
      simpl in H. rewrite Hnone in H. simpl in H.
      destruct (edges_loop G (out_edges G (e_id a)) _) as [o2|] eqn:He2;
        [|discriminate].
      simpl in H. exists c, o2. split; [reflexivity|]. split; [exact He2|].
      rewrite (observations_loop_other _ _ _ _ _ H Ha). apply lookup_insert_eq.
    + assert (e_id a <> e_id e) as Hne.
      { intros Heq. apply Ha. rewrite Heq. now apply list_elem_of_fmap_2. }
      destruct (PyStr.contains "Observation" (e_type a)); [|eapply IH; eassumption].
      destruct (PyStr.split_sep "::" (e_type a) !! 1%nat) as [c|]; [|discriminate].
      simpl in H.
      destruct (edges_loop G (out_edges G (e_id a)) _) as [o2|]; [|discriminate].
      simpl in H. eapply IH; try eassumption.
      now rewrite lookup_insert_ne.
Qed.

(** The out-edges of an entity whose relations have distinct targets are
    its relations, in their order. *)
Lemma out_edges_build (es : list entity) (rs : list relation) (u : string) :
  Forall (endpoints_known es) rs ->
  NoDup (map r_target (filter (fun r => r_source r = u) rs)) ->
  out_edges (build_graph es rs) u =
  map (fun r => (r_target r, r_type r)) (filter (fun r => r_source r = u) rs).
Proof.
  intros HF Hnd. unfold build_graph.
  rewrite (out_edges_edges (make_entity_map es)).
  - rewrite out_edges_nodes. now rewrite set_succ_fold_fresh.
  - apply graph_inv_nodes, graph_inv_empty.
  - eapply Forall_impl; [exact HF|]. intros r Hr. now apply endpoints_known_lookup.
Qed.

(** In a returned record, the observation of an entity whose relations have
    distinct targets holds the text of the entity, the second piece of its
    type, and, under 'locations', 'modifiers' and 'suggestions', the texts
    of the targets of its own located_at, modify and suggestive_of
    relations, in document order. So 'modifiers' of an observation lists
    what the observation modifies, while the 'modifiers' of the pattern
    bundle lists, under a text, what modifies it. *)
Theorem observation_record (self : RadGraphAnalyzer) (x : extract)
    (f : features) (es : list entity) (rs : list relation) (e : entity) :
  extract_features self x = Ok f ->
  parse_radgraph_format self x = Ok (es, rs) ->
  NoDup (map e_id es) ->
  e ∈ es ->
  PyStr.contains "Observation" (e_type e) = true ->
  NoDup (map r_target (filter (fun r => r_source r = e_id e) rs)) ->
  exists c,
    certainty_of e = Some c /\
    f_observations f !! e_id e =
      Some {| o_text := e_text e;
              o_certainty := c;
              o_locations := neighbor_texts es rs (e_id e) "located_at";
              o_modifiers := neighbor_texts es rs (e_id e) "modify";
              o_suggestions := neighbor_texts es rs (e_id e) "suggestive_of" |}.
Proof.
  intros H Hp Hnd He Hobs Htargets.
  unfold extract_features in H. rewrite Hp in H. simpl in H.
  destruct (find_pneumonia_patterns self es rs) as [p|] eqn:Hf; [|discriminate].
  simpl in H.
  destruct (analyze_certainty self es) as [h|]; [|discriminate]. simpl in H.
  destruct (observations_loop (build_graph es rs) es ∅) as [obs|] eqn:Ho;
    [|discriminate].
  simpl in H. injection H as <-. simpl.
  assert (Forall (endpoints_known es) rs) as HF by (eapply find_Ok_known; eassumption).
  pose proof (graph_inv_build es rs HF) as HG.
  destruct (observations_loop_at _ _ _ _ _ Ho Hnd He Hobs (lookup_empty _))
    as (c & o2 & Hc & He2 & Hlookup).
  exists c. split.
  - unfold certainty_of. now rewrite (split_sep_second _ _ Hc).
  - rewrite Hlookup. f_equal.
    rewrite (edges_loop_texts (make_entity_map es)) in He2; [|assumption|].
    + injection He2 as <-. simpl.
      rewrite (out_edges_build es rs (e_id e) HF Htargets).
      now rewrite !edge_texts_relations.
    + intros v ty Hin. unfold out_edges in Hin.
      destruct (g_succ (build_graph es rs) !! e_id e) as [l0|] eqn:Hl0;
        simpl in Hin.
      * destruct HG as (_ & _ & Hedge). eapply Hedge; eassumption.
      * now apply elem_of_nil in Hin.
Qed.

Lemma observation_record_witness :
  exists c,
    certainty_of {| e_id := "1"; e_text := "acute";
                    e_type := "Observation::definitely absent";
                    e_start_ix := 3; e_end_ix := 3 |} = Some c /\
    f_observations sample_features !! "1" =
      Some {| o_text := "acute";
              o_certainty := c;
              o_locations := [];
              o_modifiers := ["process"];
              o_suggestions := [] |}.
Proof.
  apply (observation_record init sample_extract sample_features
           sample_entities sample_relations
           {| e_id := "1"; e_text := "acute";
              e_type := "Observation::definitely absent";
              e_start_ix := 3; e_end_ix := 3 |}).
  - vm_compute. reflexivity.
  - reflexivity.
  - simpl. repeat constructor; not_in_list.
  - unfold sample_entities. in_list.
  - reflexivity.
  - vm_compute. repeat constructor; not_in_list.
Defined.

(** ** The exception of the parser *)

Lemma make_entity_has_keys text entity_id info :
  has_keys info -> exists e, make_entity text entity_id info = Ok e.
Proof.
  intros ([s Hs] & [e He] & [l Hl]). unfold make_entity.
  rewrite Hs, He, Hl. simpl. eauto.
Qed.

Lemma make_entity_missing text entity_id info k :
  first_missing_key info = Some k ->
  make_entity text entity_id info = Raise (KeyError k).
Proof.
  unfold first_missing_key, make_entity.
  destruct (i_start_ix info), (i_end_ix info), (i_label info); simpl;
    intros [= <-]; reflexivity.
Qed.

Lemma parse_items_first_missing text items1 entity_id info items2 k :
  Forall (fun it => has_keys it.2) items1 ->
  first_missing_key info = Some k ->
  forall es0 rs0,
    parse_items text (items1 ++ (entity_id, info) :: items2) es0 rs0 =
    Raise (KeyError k).
Proof.
  intros HF Hk. induction HF as [|[id0 info0] items1 H0 _ IH]; intros es0 rs0; simpl.
  - now rewrite (make_entity_missing _ _ _ _ Hk).
  - destruct (make_entity_has_keys text id0 info0 H0) as [e ->]. simpl. apply IH.
Qed.

(** The parser raises the KeyError of the first item, in the order of the
    mapping, that lacks one of the keys it reads, and for that item of the
    first missing key in the order start_ix, end_ix, label; the entities
    and relations of the items before it are not returned. *)
Theorem parse_raises_first_missing (self : RadGraphAnalyzer) (text : string)
    (items1 : list (string * entity_info)) (entity_id : string)
    (info : entity_info) (items2 : list (string * entity_info)) (k : string) :
  Forall (fun it => has_keys it.2) items1 ->
  first_missing_key info = Some k ->
  parse_radgraph_format self
    {| x_text := Some text;
       x_entities := Some (items1 ++ (entity_id, info) :: items2) |} =
    Raise (KeyError k).
Proof.
  intros HF Hk. unfold parse_radgraph_format. simpl.
  now apply parse_items_first_missing.
Qed.

Lemma parse_raises_first_missing_witness :
  parse_radgraph_format init
    {| x_text := Some "patchy opacity";
       x_entities := Some
         ([ ("1", {| i_tokens := None; i_label := Some "Observation::uncertain";
                     i_start_ix := Some 0; i_end_ix := Some 0;
                     i_relations := None |}) ] ++
          ("2", {| i_tokens := None; i_label := None;
                   i_start_ix := Some 1; i_end_ix := None;
                   i_relations := None |}) ::
          [ ("3", {| i_tokens := None; i_label := None;
                     i_start_ix := None; i_end_ix := None;
                     i_relations := None |}) ]) |} =
    Raise (KeyError "end_ix").
Proof.
  apply (parse_raises_first_missing init "patchy opacity").
  - repeat constructor; simpl; eauto.
  - reflexivity.
Defined.

(** ** The graph metrics *)

Lemma make_relations_length entity_id info :
  length (make_relations entity_id info) = length (default [] (i_relations info)).
Proof. unfold make_relations. apply length_map. Qed.

Lemma concat_relations_length (items : list (string * entity_info)) :
  length (concat (map (fun it => make_relations it.1 it.2) items)) =
  declared_relations items.
Proof.
  unfold declared_relations. induction items as [|[id info] items IH]; [reflexivity|].
  simpl. now rewrite length_app, make_relations_length, IH.
Qed.

(** In a returned record num_entities is the number of items of the input
    mapping and num_relations is the number of relations that the items
    declare (each one counted, also when two of them join the same pair of
    entities); the anatomical sites and the observations are each at most
    the entities. *)
Theorem graph_metrics_count (self : RadGraphAnalyzer) (x : extract)
    (f : features) (items : list (string * entity_info)) :
  extract_features self x = Ok f ->
  x_entities x = Some items ->
  num_entities (f_graph_metrics f) = length items /\
  num_relations (f_graph_metrics f) = declared_relations items /\
  (num_anatomical_sites (f_graph_metrics f) <= num_entities (f_graph_metrics f))%nat /\
  (num_observations (f_graph_metrics f) <= num_entities (f_graph_metrics f))%nat.
Proof.
  intros H Hi. unfold extract_features in H.
  destruct (parse_radgraph_format self x) as [[es rs]|] eqn:Hp; [|discriminate].
  simpl in H.
  destruct (find_pneumonia_patterns self es rs) as [p|]; [|discriminate].
  simpl in H.
  destruct (analyze_certainty self es) as [h|]; [|discriminate]. simpl in H.
  destruct (observations_loop (build_graph es rs) es ∅) as [obs|]; [|discriminate].
  simpl in H. injection H as <-. simpl.
  pose proof (parse_ids _ _ _ _ _ Hp Hi) as Hids.
  apply parse_radgraph_format_Ok in Hp as (text & items' & _ & Hi' & _ & ->).
  assert (items' = items) as -> by congruence.
  split; [|split; [|split]].
  - rewrite <- (length_map e_id es), Hids. apply length_map.
  - apply concat_relations_length.
  - apply length_filter.
  - apply length_filter.
Qed.

Lemma graph_metrics_count_witness :
  num_entities (f_graph_metrics sample_features) = 5%nat /\
  num_relations (f_graph_metrics sample_features) = 3%nat /\
  (num_anatomical_sites (f_graph_metrics sample_features)
   <= num_entities (f_graph_metrics sample_features))%nat /\
  (num_observations (f_graph_metrics sample_features)
   <= num_entities (f_graph_metrics sample_features))%nat.
Proof.
  apply (graph_metrics_count init sample_extract sample_features
           (default [] (x_entities sample_extract))).
  - vm_compute. reflexivity.
  - reflexivity.
Defined.

(** ** Lists only grow *)

Lemma lists_extended_refl d : lists_extended d d.
Proof. intros k l H. exists []. now rewrite app_nil_r. Qed.

Lemma lists_extended_trans d1 d2 d3 :
  lists_extended d1 d2 -> lists_extended d2 d3 -> lists_extended d1 d3.
Proof.
  intros H12 H23 k l H. destruct (H12 k l H) as [l1 H1].
  destruct (H23 _ _ H1) as [l2 H2]. exists (l1 ++ l2). now rewrite app_assoc.
Qed.

Lemma lists_extended_append_to k v d : lists_extended d (append_to k v d).
Proof.
  intros k' l H. unfold append_to. destruct (decide (k = k')) as [<-|Hne].
  - exists [v]. rewrite lookup_insert_eq, H. reflexivity.
  - exists []. rewrite lookup_insert_ne by assumption. now rewrite app_nil_r.
Qed.

Lemma dispatch_extends self m p r p' :
  dispatch self m p r = Ok p' ->
  lists_extended (findings p) (findings p') /\
  lists_extended (modifiers p) (modifiers p').
Proof.
  unfold dispatch, lookup_entity.
  destruct (m !! r_source r) as [s|]; [|discriminate].
  destruct (m !! r_target r) as [t|]; [|discriminate]. simpl.
  repeat match goal with
         | |- context [if ?b then _ else _] => destruct b
         end;
    intros [= <-]; simpl; split;
    first [apply lists_extended_refl | apply lists_extended_append_to].
Qed.

Lemma patterns_loop_extends self m rs :
  forall p p',
    patterns_loop self m rs p = Ok p' ->
    lists_extended (findings p) (findings p') /\
    lists_extended (modifiers p) (modifiers p').
Proof.
  induction rs as [|r rs IH]; intros p p' H; simpl in H.
  - injection H as <-. split; apply lists_extended_refl.
  - destruct (dispatch self m p r) as [p1|] eqn:Hd; [|discriminate].
    simpl in H. apply dispatch_extends in Hd as [Hf1 Hm1].
    apply IH in H as [Hf2 Hm2].
    split; eapply lists_extended_trans; eassumption.
Qed.

(** More relations at the end of the list never remove or reorder what the
    relations before them recorded: every findings list and every modifiers
    list of the shorter run is a prefix of the list under the same key in
    the longer run. *)
Theorem bundle_grows (self : RadGraphAnalyzer) (es : list entity)
    (rs rs' : list relation) (p p' : patterns) :
  find_pneumonia_patterns self es rs = Ok p ->
  find_pneumonia_patterns self es (rs ++ rs') = Ok p' ->
  lists_extended (findings p) (findings p') /\
  lists_extended (modifiers p) (modifiers p').
Proof.
  unfold find_pneumonia_patterns. intros Hp Hp'.
  rewrite patterns_loop_app, Hp in Hp'. simpl in Hp'.
  eapply patterns_loop_extends; eassumption.
Qed.

Lemma bundle_grows_witness :
  lists_extended {[ "process" := [Str "cardiopulmonary"] ]}
                 {[ "process" := [Str "cardiopulmonary"] ]} /\
  lists_extended {[ "process" := [Str "acute"] ]}
                 (<[ "process" := [Str "acute"] ]>
                    {[ "hiatal hernia" := [Str "moderate"] ]}).
Proof.
  pose proof
    (bundle_grows init sample_entities
       [ {| r_source := "1"; r_target := "3"; r_type := "modify" |};
         {| r_source := "3"; r_target := "2"; r_type := "located_at" |} ]
       [ {| r_source := "4"; r_target := "5"; r_type := "modify" |} ]
       {| findings := {[ "process" := [Str "cardiopulmonary"] ]};
          locations := ∅;
          modifiers := {[ "process" := [Str "acute"] ]} |}
       {| findings := {[ "process" := [Str "cardiopulmonary"] ]};
          locations := ∅;
          modifiers := <[ "process" := [Str "acute"] ]>
                         {[ "hiatal hernia" := [Str "moderate"] ]} |}) as H.
  simpl in H. apply H; vm_compute; reflexivity.
Defined.

(** ** Relations that join the same pair of entities *)

Lemma set_succ_fst (v ty : string) (l : list (string * string)) :
  map fst (set_succ v ty l) =
  if decide (v ∈ map fst l) then map fst l else map fst l ++ [v].
Proof.
  induction l as [|[w t] l IH].
  - destruct (decide (v ∈ map fst [])) as [Hin|_]; [|reflexivity].
    now apply elem_of_nil in Hin.
  - change (map fst ((w, t) :: l)) with (w :: map fst l).
    simpl set_succ. destruct (String.eqb_spec w v) as [->|Hne].
    + destruct (decide (v ∈ v :: map fst l)) as [_|Hout]; [reflexivity|].
      exfalso. apply Hout, list_elem_of_here.
    + change (map fst ((w, t) :: set_succ v ty l))
        with (w :: map fst (set_succ v ty l)).
      rewrite IH. destruct (decide (v ∈ map fst l)) as [Hin|Hin].
      * destruct (decide (v ∈ w :: map fst l)) as [_|Hout]; [reflexivity|].
        exfalso. now apply Hout, list_elem_of_further.
      * destruct (decide (v ∈ w :: map fst l)) as [Hin'|_]; [|reflexivity].
        apply elem_of_cons in Hin' as [Hin'|Hin']; [congruence | contradiction].
Qed.

Lemma set_succ_fold_targets (rs : list relation) :
  forall l : list (string * string),
    NoDup (map fst l) ->
    NoDup (map fst (foldl (fun l r => set_succ (r_target r) (r_type r) l) l rs)) /\
    (list_to_set
       (map fst (foldl (fun l r => set_succ (r_target r) (r_type r) l) l rs))
     : gset string) =
    list_to_set (map fst l) ∪ list_to_set (map r_target rs).
Proof.
  induction rs as [|r rs IH]; intros l Hnd; simpl.
  - split; [assumption | now rewrite union_empty_r_L].
  - destruct (IH (set_succ (r_target r) (r_type r) l)) as [Hnd' Hset].
    + rewrite set_succ_fst. destruct (decide (r_target r ∈ map fst l)) as [Hin|Hin];
        [assumption|].
      apply NoDup_app. split; [assumption|]. split.
      * intros y Hy Hy'. apply list_elem_of_singleton in Hy' as ->. contradiction.
      * apply NoDup_singleton.
    + split; [exact Hnd'|]. rewrite Hset, set_succ_fst.
      destruct (decide (r_target r ∈ map fst l)) as [Hin|Hin].
      * apply set_eq. intros y.
        rewrite !elem_of_union, elem_of_singleton, !elem_of_list_to_set.
        split; [tauto|]. intros [H|[->|H]]; tauto.
      * rewrite list_to_set_app_L. simpl. rewrite union_empty_r_L.
        now rewrite (assoc_L (∪)).
Qed.

Lemma edge_texts_three m (edges : list (string * string)) :
  (length (edge_texts m "located_at" edges)
   + length (edge_texts m "modify" edges)
   + length (edge_texts m "suggestive_of" edges) <= length edges)%nat.
Proof.
  induction edges as [|[v ty] edges IH]; [reflexivity|].
  rewrite !edge_texts_unfold. simpl.
  destruct (decide (ty = "located_at")) as [->|H1].
  - rewrite (decide_False (P := "located_at" = "modify")) by discriminate.
    rewrite (decide_False (P := "located_at" = "suggestive_of")) by discriminate.
    destruct (e_text <$> m !! v); simpl; lia.
  - destruct (decide (ty = "modify")) as [->|H2].
    + rewrite (decide_False (P := "modify" = "suggestive_of")) by discriminate.
      destruct (e_text <$> m !! v); simpl; lia.
    + destruct (decide (ty = "suggestive_of")) as [->|H3]; [|lia].
      destruct (e_text <$> m !! v); simpl; lia.
Qed.

(** The graph keeps one edge for each pair of entities, so an observation
    record has at most one entry for each distinct target of the relations
    of its entity, whatever the number of relations to that target (the
    pattern bundle, in contrast, is given every relation). *)
Theorem observation_entries_bound (self : RadGraphAnalyzer) (x : extract)
    (f : features) (es : list entity) (rs : list relation) (e : entity)
    (o : observation) :
  extract_features self x = Ok f ->
  parse_radgraph_format self x = Ok (es, rs) ->
  NoDup (map e_id es) ->
  e ∈ es ->
  PyStr.contains "Observation" (e_type e) = true ->
  f_observations f !! e_id e = Some o ->
  (length (o_locations o) + length (o_modifiers o) + length (o_suggestions o)
   <= size (list_to_set
              (map r_target (filter (fun r => r_source r = e_id e) rs))
            : gset string))%nat.
Proof.
  intros H Hp Hnd He Hobs Hrec.
  unfold extract_features in H. rewrite Hp in H. simpl in H.
  destruct (find_pneumonia_patterns self es rs) as [p|] eqn:Hf; [|discriminate].
  simpl in H.
  destruct (analyze_certainty self es) as [h|]; [|discriminate]. simpl in H.
  destruct (observations_loop (build_graph es rs) es ∅) as [obs|] eqn:Ho;
    [|discriminate].
  simpl in H. injection H as <-. simpl in Hrec.
  assert (Forall (endpoints_known es) rs) as HF by (eapply find_Ok_known; eassumption).
  pose proof (graph_inv_build es rs HF) as HG.
  destruct (observations_loop_at _ _ _ _ _ Ho Hnd He Hobs (lookup_empty _))
    as (c & o2 & Hc & He2 & Hlookup).
  rewrite Hlookup in Hrec. injection Hrec as ->.
  rewrite (edges_loop_texts (make_entity_map es)) in He2; [|assumption|].
  - injection He2 as <-. simpl.
    etransitivity; [apply edge_texts_three|].
    unfold build_graph.
    rewrite (out_edges_edges (make_entity_map es));
      [|apply graph_inv_nodes, graph_inv_empty
       |eapply Forall_impl; [exact HF|]; intros r Hr; now apply endpoints_known_lookup].
    rewrite out_edges_nodes.
    destruct (set_succ_fold_targets (filter (fun r => r_source r = e_id e) rs) [])
      as [Hnd' Hset]; [apply NoDup_nil_2|].
    simpl in Hset. rewrite union_empty_l_L in Hset.
    rewrite <- Hset, size_list_to_set by assumption.
    now rewrite length_map.
  - intros v ty Hin. unfold out_edges in Hin.
    destruct (g_succ (build_graph es rs) !! e_id e) as [l0|] eqn:Hl0; simpl in Hin.
    + destruct HG as (_ & _ & Hedge). eapply Hedge; eassumption.
    + now apply elem_of_nil in Hin.
Qed.

Lemma observation_entries_bound_witness :
  exists f o,
    extract_features init parallel_extract = Ok f /\
    f_observations f !! "1" = Some o /\
    o_locations o = ["lung"] /\
    o_modifiers o = [] /\
    (length (o_locations o) + length (o_modifiers o) + length (o_suggestions o)
     <= 1)%nat.
Proof.
  eexists _, _. split; [vm_compute; reflexivity|].
  split; [vm_compute; reflexivity|].
  split; [reflexivity|]. split; [reflexivity|].
  eapply Nat.le_trans.
  - eapply (observation_entries_bound init parallel_extract) with
      (es := [ {| e_id := "1"; e_text := "opacity";
                  e_type := "Observation::definitely present";
                  e_start_ix := 0; e_end_ix := 0 |};
               {| e_id := "2"; e_text := "lung";
                  e_type := "Anatomy::definitely present";
                  e_start_ix := 1; e_end_ix := 1 |} ])
      (rs := [ {| r_source := "1"; r_target := "2"; r_type := "modify" |};
               {| r_source := "1"; r_target := "2"; r_type := "located_at" |} ])
      (e := {| e_id := "1"; e_text := "opacity";
               e_type := "Observation::definitely present";
               e_start_ix := 0; e_end_ix := 0 |}).
    + vm_compute. reflexivity.
    + reflexivity.
    + simpl. repeat constructor; not_in_list.
    + in_list.
    + reflexivity.
    + vm_compute. reflexivity.
  - vm_compute. apply le_n.
Defined.
